(** * trezor-firmware: Monero signing dispatch, Cardano auxiliary data,
      recovery abort

    A shallow embedding of
    - [core/src/apps/monero/sign_tx.py] ([sign_tx], [_sign_tx_dispatch]),
    - [core/src/apps/cardano/auxiliary_data.py] ([assert_cond], [validate]
      and the validators it calls),
    - [core/src/apps/management/recovery_device/homescreen.py]
      ([recovery_process]).

    Python exceptions are values of [Exception]; a call that may raise
    returns a [result].  Objects mutated in place (the signing [State], the
    persistent storage) are threaded explicitly. *)

From Stdlib Require Import ZArith NArith List String Bool Lia Sorted.
From Stdlib Require Import Ascii DecimalString.
Import ListNotations.

Set Implicit Arguments.

(** ** Exceptions and the error monad *)

(** The exception classes the embedded code raises or catches, followed by
    the error kinds of the specification's taxonomy, which the step handlers
    of [apps.monero.signing] are described with. *)
Inductive Exception : Type :=
| DataError (message : string)        (* wire.DataError *)
| ProcessError (message : string)     (* wire.ProcessError *)
| ActionCancelled                     (* wire.ActionCancelled *)
| RecoveryAborted                     (* recover.RecoveryAborted *)
| ProtocolSequenceError
| IntegrityError
| LimitExceededError
| KeychainError
| OtherException (name : string).

Inductive result (A : Type) : Type :=
| Ok (a : A)
| Raise (e : Exception).

Arguments Ok {A} a.
Arguments Raise {A} e.

Definition bind {A B : Type} (m : result A) (k : A -> result B) : result B :=
  match m with
  | Ok a => k a
  | Raise e => Raise e
  end.

Declare Scope result_scope.
Delimit Scope result_scope with result.
Notation "x <- m ;; k" := (bind m (fun x => k))
  (at level 61, m at next level, right associativity) : result_scope.
Notation "' p <- m ;; k" := (bind m (fun x => let p := x in k))
  (at level 61, p pattern, m at next level, right associativity) : result_scope.
Notation "m ;;; k" := (bind m (fun _ => k))
  (at level 61, right associativity) : result_scope.
Open Scope result_scope.

Definition bytes := list Byte.byte.

(** Python truthiness of the values the code tests with a bare [if]. *)
Definition truthy_bytes (b : option bytes) : bool :=
  match b with
  | Some (_ :: _) => true
  | _ => false
  end.

Definition truthy_object {A : Type} (o : option A) : bool :=
  match o with
  | Some _ => true
  | None => false
  end.

Definition truthy_list {A : Type} (l : list A) : bool :=
  match l with
  | [] => false
  | _ :: _ => true
  end.

(** [bool(x)] of an optional boolean field. *)
Definition truthy_bool (b : option bool) : bool :=
  match b with
  | Some true => true
  | _ => false
  end.

(** * Monero: [apps/monero/sign_tx.py] *)
Module Monero.

(** The members of [trezor.enums.MessageType] that [sign_tx.py] names; every
    other wire type is [OtherMessageType] with its number. *)
Inductive MessageType : Type :=
| MoneroTransactionInitRequest
| MoneroTransactionSetInputRequest
| MoneroTransactionInputViniRequest
| MoneroTransactionAllInputsSetRequest
| MoneroTransactionSetOutputRequest
| MoneroTransactionAllOutSetRequest
| MoneroTransactionSignInputRequest
| MoneroTransactionFinalRequest
| OtherMessageType (wire_type : Z).

Definition MessageType_eqb (a b : MessageType) : bool :=
  match a, b with
  | MoneroTransactionInitRequest, MoneroTransactionInitRequest
  | MoneroTransactionSetInputRequest, MoneroTransactionSetInputRequest
  | MoneroTransactionInputViniRequest, MoneroTransactionInputViniRequest
  | MoneroTransactionAllInputsSetRequest, MoneroTransactionAllInputsSetRequest
  | MoneroTransactionSetOutputRequest, MoneroTransactionSetOutputRequest
  | MoneroTransactionAllOutSetRequest, MoneroTransactionAllOutSetRequest
  | MoneroTransactionSignInputRequest, MoneroTransactionSignInputRequest
  | MoneroTransactionFinalRequest, MoneroTransactionFinalRequest => true
  | OtherMessageType x, OtherMessageType y => Z.eqb x y
  | _, _ => false
  end.

Infix "==" := MessageType_eqb (at level 70, no associativity).

(** The interface of the package [apps.monero.signing] as [sign_tx.py] uses
    it: the [State] class, the types of the sub-messages it forwards, and
    the eight step functions.  A step mutates the state it is given and
    returns the response message, or raises. *)
Record SigningSteps : Type := {
  State : Type;
  Keychain : Type;
  Response : Type;
  MoneroTransactionData : Type;
  MoneroTransactionSourceEntry : Type;
  MoneroTransactionDestinationEntry : Type;
  MoneroTransactionRsigData : Type;
  (* State(ctx) *)
  State_new : State;
  init_transaction :
    State -> list Z -> option Z -> option MoneroTransactionData -> Keychain ->
    result (Response * State);
  set_input :
    State -> option MoneroTransactionSourceEntry -> result (Response * State);
  input_vini :
    State -> option MoneroTransactionSourceEntry -> option bytes ->
    option bytes -> option Z -> result (Response * State);
  all_inputs_set : State -> result (Response * State);
  set_output :
    State -> option MoneroTransactionDestinationEntry -> option bytes ->
    option MoneroTransactionRsigData -> bool -> result (Response * State);
  all_outputs_set : State -> result (Response * State);
  sign_input :
    State -> option MoneroTransactionSourceEntry -> option bytes ->
    option bytes -> option bytes -> option bytes -> option bytes ->
    option bytes -> option Z -> result (Response * State);
  final_msg : State -> result (Response * State)
}.

Section Dispatch.

Context {S : SigningSteps}.

(** A received message: its wire type and the attributes the dispatcher
    reads.  An attribute the message does not carry is [None]. *)
Record Msg : Type := {
  MESSAGE_WIRE_TYPE : MessageType;
  address_n : list Z;
  network_type : option Z;
  tsx_data : option (MoneroTransactionData S);
  src_entr : option (MoneroTransactionSourceEntry S);
  vini : option bytes;
  vini_hmac : option bytes;
  orig_idx : option Z;
  is_offloaded_bp : option bool;
  dst_entr : option (MoneroTransactionDestinationEntry S);
  dst_entr_hmac : option bytes;
  rsig_data : option (MoneroTransactionRsigData S);
  pseudo_out : option bytes;
  pseudo_out_hmac : option bytes;
  pseudo_out_alpha : option bytes;
  spend_key : option bytes
}.

(** What one call of the dispatcher returns: the response, the tuple of
    wire types accepted next ([None] after the final request), and the
    state as the step left it. *)
Definition Dispatched : Type :=
  (Response S * option (list MessageType) * State S)%type.

Definition returning (accept_msgs : option (list MessageType))
    (step : result (Response S * State S)) : result Dispatched :=
  '(result_msg, state) <- step ;; Ok (result_msg, accept_msgs, state).

Definition _sign_tx_dispatch (state : State S) (msg : Msg)
    (keychain : Keychain S) : result Dispatched :=
  let MESSAGE_WIRE_TYPE := MESSAGE_WIRE_TYPE msg in
  if MESSAGE_WIRE_TYPE == MoneroTransactionInitRequest then
    returning (Some [MoneroTransactionSetInputRequest])
      (init_transaction S state (address_n msg) (network_type msg)
         (tsx_data msg) keychain)
  else if MESSAGE_WIRE_TYPE == MoneroTransactionSetInputRequest then
    returning
      (Some [MoneroTransactionSetInputRequest;
             MoneroTransactionInputViniRequest])
      (set_input S state (src_entr msg))
  else if MESSAGE_WIRE_TYPE == MoneroTransactionInputViniRequest then
    returning
      (Some [MoneroTransactionInputViniRequest;
             MoneroTransactionAllInputsSetRequest])
      (input_vini S state (src_entr msg) (vini msg) (vini_hmac msg)
         (orig_idx msg))
  else if MESSAGE_WIRE_TYPE == MoneroTransactionAllInputsSetRequest then
    returning (Some [MoneroTransactionSetOutputRequest])
      (all_inputs_set S state)
  else if MESSAGE_WIRE_TYPE == MoneroTransactionSetOutputRequest then
    let is_offloaded_bp := truthy_bool (is_offloaded_bp msg) in
    let '(dst, dst_hmac, rsig_data) :=
      (dst_entr msg, dst_entr_hmac msg, rsig_data msg) in
    returning
      (Some [MoneroTransactionSetOutputRequest;
             MoneroTransactionAllOutSetRequest])
      (set_output S state dst dst_hmac rsig_data is_offloaded_bp)
  else if MESSAGE_WIRE_TYPE == MoneroTransactionAllOutSetRequest then
    returning (Some [MoneroTransactionSignInputRequest])
      (all_outputs_set S state)
  else if MESSAGE_WIRE_TYPE == MoneroTransactionSignInputRequest then
    returning
      (Some [MoneroTransactionSignInputRequest;
             MoneroTransactionFinalRequest])
      (sign_input S state (src_entr msg) (vini msg) (vini_hmac msg)
         (pseudo_out msg) (pseudo_out_hmac msg) (pseudo_out_alpha msg)
         (spend_key msg) (orig_idx msg))
  else if MESSAGE_WIRE_TYPE == MoneroTransactionFinalRequest then
    returning None (final_msg S state)
  else
    Raise (DataError "Unknown message").

(** The wire context [ctx] as [sign_tx] uses it.  [ctx.write] sends a
    response to the host; [ctx.read_any(accept_msgs)] waits for the next
    message of the host and returns it, or raises.  Neither is among the
    sources: [read_any] is the context's decision on the next incoming
    message given the accepted wire types, [incoming] the messages the host
    sends after the first one. *)
Record Context : Type := {
  read_any : list MessageType -> Msg -> result Msg;
  incoming : list Msg
}.

(** What [sign_tx] does on the wire, in order. *)
Inductive Event : Type :=
| Written (result_msg : Response S)
| Received (received_msg : Msg).

(** How a call of [sign_tx] ends: it returns its result, an exception leaves
    it, or it is suspended in [read_any] because the host sent nothing
    more. *)
Inductive Outcome : Type :=
| Returned (result_msg : Response S) (trace : list Event)
| Raised (e : Exception) (trace : list Event)
| Awaiting (accept_msgs : list MessageType) (trace : list Event).

Definition trace_of (o : Outcome) : list Event :=
  match o with
  | Returned _ trace | Raised _ trace | Awaiting _ trace => trace
  end.

Definition after (events : list Event) (o : Outcome) : Outcome :=
  match o with
  | Returned result_msg trace => Returned result_msg (events ++ trace)
  | Raised e trace => Raised e (events ++ trace)
  | Awaiting accept_msgs trace => Awaiting accept_msgs (events ++ trace)
  end.

(** The [while True] loop of [sign_tx], one iteration per message; the
    calls to [gc], [log] and [utils.unimport_*] have no effect on the
    protocol and are left out. *)
Fixpoint sign_tx_loop (read_any : list MessageType -> Msg -> result Msg)
    (state : State S) (received_msg : Msg) (keychain : Keychain S)
    (incoming : list Msg) : Outcome :=
  match _sign_tx_dispatch state received_msg keychain with
  | Raise e => Raised e []
  | Ok (result_msg, accept_msgs, state) =>
    match accept_msgs with
    | None => Returned result_msg []
    | Some accept_msgs =>
      after [Written result_msg]
        match incoming with
        | [] => Awaiting accept_msgs []
        | next :: incoming =>
          match read_any accept_msgs next with
          | Raise e => Raised e []
          | Ok received_msg =>
            after [Received received_msg]
              (sign_tx_loop read_any state received_msg keychain incoming)
          end
        end
    end
  end.

Definition sign_tx (ctx : Context) (received_msg : Msg)
    (keychain : Keychain S) : Outcome :=
  let state := State_new S in
  sign_tx_loop (read_any ctx) state received_msg keychain (incoming ctx).

(** The requests a run took from the wire, and the responses it wrote. *)
Fixpoint received (trace : list Event) : list Msg :=
  match trace with
  | [] => []
  | Received m :: trace => m :: received trace
  | Written _ :: trace => received trace
  end.

Fixpoint written (trace : list Event) : list (Response S) :=
  match trace with
  | [] => []
  | Written r :: trace => r :: written trace
  | Received _ :: trace => written trace
  end.

(** [write_then_read trace]: every write in [trace] is followed by exactly
    one read, except possibly the last one, and nothing is read that does
    not follow a write. *)
Fixpoint write_then_read (trace : list Event) : bool :=
  match trace with
  | [] => true
  | [Written _] => true
  | Written _ :: Received _ :: trace => write_then_read trace
  | _ => false
  end.

(** [rounds read_any keychain state msg incoming trace state' msg']: with
    [msg] at hand in [state] and the host sending [incoming], the loop goes
    through [trace], each request answered by one write that is followed by
    the read of the next request, and arrives in [state'] with [msg'] at
    hand and not yet dispatched. *)
Inductive rounds (read_any : list MessageType -> Msg -> result Msg)
    (keychain : Keychain S) : State S -> Msg -> list Msg -> list Event ->
    State S -> Msg -> Prop :=
| rounds_done : forall state msg incoming,
    rounds read_any keychain state msg incoming [] state msg
| rounds_more : forall state msg result_msg accept_msgs state1 next incoming
                       msg1 trace state' msg',
    _sign_tx_dispatch state msg keychain
      = Ok (result_msg, Some accept_msgs, state1) ->
    read_any accept_msgs next = Ok msg1 ->
    rounds read_any keychain state1 msg1 incoming trace state' msg' ->
    rounds read_any keychain state msg (next :: incoming)
      (Written result_msg :: Received msg1 :: trace) state' msg'.

End Dispatch.

Arguments Msg S : clear implicits.
Arguments Context S : clear implicits.
Arguments Event S : clear implicits.
Arguments Outcome S : clear implicits.

(** The phases of the specification's table, in its order, and the phase a
    request belongs to. *)
Inductive Phase : Type :=
| INIT | SET_INPUT | INPUT_VINI | ALL_INPUTS_SET
| SET_OUTPUT | ALL_OUTPUTS_SET | SIGN_INPUT | FINAL.

Definition Phase_rank (p : Phase) : nat :=
  match p with
  | INIT => 0 | SET_INPUT => 1 | INPUT_VINI => 2 | ALL_INPUTS_SET => 3
  | SET_OUTPUT => 4 | ALL_OUTPUTS_SET => 5 | SIGN_INPUT => 6 | FINAL => 7
  end.

Definition phase_of (t : MessageType) : option Phase :=
  match t with
  | MoneroTransactionInitRequest => Some INIT
  | MoneroTransactionSetInputRequest => Some SET_INPUT
  | MoneroTransactionInputViniRequest => Some INPUT_VINI
  | MoneroTransactionAllInputsSetRequest => Some ALL_INPUTS_SET
  | MoneroTransactionSetOutputRequest => Some SET_OUTPUT
  | MoneroTransactionAllOutSetRequest => Some ALL_OUTPUTS_SET
  | MoneroTransactionSignInputRequest => Some SIGN_INPUT
  | MoneroTransactionFinalRequest => Some FINAL
  | OtherMessageType _ => None
  end.

(** The tuple of wire types [_sign_tx_dispatch] returns next to the
    response of a request of wire type [t]. *)
Definition accept_after (t : MessageType) : option (list MessageType) :=
  match t with
  | MoneroTransactionInitRequest => Some [MoneroTransactionSetInputRequest]
  | MoneroTransactionSetInputRequest =>
    Some [MoneroTransactionSetInputRequest; MoneroTransactionInputViniRequest]
  | MoneroTransactionInputViniRequest =>
    Some [MoneroTransactionInputViniRequest;
          MoneroTransactionAllInputsSetRequest]
  | MoneroTransactionAllInputsSetRequest =>
    Some [MoneroTransactionSetOutputRequest]
  | MoneroTransactionSetOutputRequest =>
    Some [MoneroTransactionSetOutputRequest;
          MoneroTransactionAllOutSetRequest]
  | MoneroTransactionAllOutSetRequest =>
    Some [MoneroTransactionSignInputRequest]
  | MoneroTransactionSignInputRequest =>
    Some [MoneroTransactionSignInputRequest; MoneroTransactionFinalRequest]
  | _ => None
  end.

(** [not_earlier a b]: both wire types belong to a phase and the phase of
    [b] is not before the phase of [a]. *)
Definition not_earlier (a b : MessageType) : Prop :=
  match phase_of a, phase_of b with
  | Some p, Some q => Phase_rank p <= Phase_rank q
  | _, _ => False
  end.

(** [once_or_repeatable a b]: [b] is not earlier than [a], and the two are
    the same wire type only for the four per-item requests. *)
Definition once_or_repeatable (a b : MessageType) : Prop :=
  not_earlier a b /\
  (a = b ->
   In a [MoneroTransactionSetInputRequest; MoneroTransactionInputViniRequest;
         MoneroTransactionSetOutputRequest;
         MoneroTransactionSignInputRequest]).

(** How many times the wire type [t] occurs in a list of wire types. *)
Definition occurrences (t : MessageType) (l : list MessageType) : nat :=
  List.length (filter (MessageType_eqb t) l).

(** Modelled from the spec: [ctx.read_any] of the wire context, which is
    not among the sources.  The host may only send a request of one of the
    next allowed kinds (section 5); any other kind is a
    [ProtocolSequenceError] (section 4.2, dispatch contract). *)
Definition read_expected {S : SigningSteps} (accept_msgs : list MessageType)
    (next : Msg S) : result (Msg S) :=
  if existsb (MessageType_eqb (MESSAGE_WIRE_TYPE next)) accept_msgs
  then Ok next
  else Raise ProtocolSequenceError.

(** ** The step handlers, from the specification

    The package [apps.monero.signing] (the [State] class and the modules
    [step_01_init_transaction] ... [step_10_sign_final]) is not among the
    sources.  [SpecModel] follows sections 3, 4 and 7 of the
    specification. *)
Module SpecModel.

(** Modelled from the spec: the collaborators of section 6 that are consumed
    as black boxes, namely the keychain service ([derive_signing_key],
    [sign]), the message-authentication primitive behind [tag], the order of
    the commitment group, and the protocol's ceiling on declared counts. *)
Record Primitives : Type := {
  group_order : Z;
  count_ceiling : Z;
  KeychainService : Type;
  KeyHandle : Type;
  Secret : Type;
  derive_signing_key : KeychainService -> list Z -> result KeyHandle;
  derive_session_secret : KeyHandle -> Secret;
  mac : Secret -> Z -> bytes -> bytes;
  sign : KeyHandle -> bytes -> result bytes
}.

(** Modelled from the spec: the transaction parameters of an INIT request
    (section 3, [transaction_parameters]): the declared counts. *)
Record TsxData : Type := {
  num_inputs : Z;
  num_outputs : Z
}.

(** Modelled from the spec: an input or output descriptor (section 4.2): the
    index the request declares, the blinded value commitment it contributes
    to the running sum, and the per-item state that is offloaded. *)
Record Descriptor : Type := {
  declared_index : Z;
  commitment : Z;
  item_state : bytes
}.

(** Modelled from the spec: the response records, one per phase. *)
Inductive Ack : Type :=
| InitAck
| SetInputAck (payload authentication_tag : bytes)
| InputViniAck
| AllInputsSetAck
| SetOutputAck (payload authentication_tag : bytes)
| AllOutSetAck
| SignInputAck (signature : bytes)
| FinalAck (signatures : list bytes).

(** Modelled from the spec: the comparison of two tags (section 4.1). *)
Fixpoint bytes_eqb (a b : bytes) : bool :=
  match a, b with
  | [], [] => true
  | x :: a, y :: b => Byte.eqb x y && bytes_eqb a b
  | _, _ => false
  end.

Section Handlers.

Variable P : Primitives.

(** Modelled from the spec: the Session of section 3.  [phase] is the phase
    whose request is expected next, [None] once the session is over. *)
Record Session : Type := {
  phase : option Phase;
  input_count : Z;
  output_count : Z;
  input_cursor : Z;
  output_cursor : Z;
  pseudo_output_sum : Z;
  output_commitment_sum : Z;
  signing_key : option (KeyHandle P);
  session_secret : option (Secret P);
  signatures_so_far : list bytes
}.

(** Modelled from the spec: the state before the INIT request has been
    processed: no counts, no sums, no secret. *)
Definition Session_new : Session :=
  {| phase := Some INIT;
     input_count := 0; output_count := 0;
     input_cursor := 0; output_cursor := 0;
     pseudo_output_sum := 0; output_commitment_sum := 0;
     signing_key := None; session_secret := None;
     signatures_so_far := [] |}.

(** Modelled from the spec: [tag] of the Offload Authenticator (section
    4.1), the message-authentication value of the payload under the session
    secret and the index. *)
Definition tag (session_secret : Secret P) (index : Z) (payload : bytes)
    : bytes :=
  mac P session_secret index payload.

(** Modelled from the spec: [verify] of the Offload Authenticator (section
    4.1) recomputes the tag and compares. *)
Definition verify (session_secret : Secret P) (index : Z) (payload : bytes)
    (authentication_tag : bytes) : bool :=
  bytes_eqb (tag session_secret index payload) authentication_tag.

(** Modelled from the spec: addition in the scalar arithmetic of the
    commitment group (section 4.3). *)
Definition sc_add (a b : Z) : Z := ((a + b) mod group_order P)%Z.

(** Modelled from the spec: equality in the scalar arithmetic of the
    commitment group (section 4.3). *)
Definition sc_eq (a b : Z) : bool :=
  (a mod group_order P =? b mod group_order P)%Z.

(** Modelled from the spec: equality of phases, by their place in the
    table of section 4.2. *)
Definition Phase_eqb (p q : Phase) : bool :=
  Nat.eqb (Phase_rank p) (Phase_rank q).

(** Modelled from the spec: the dispatch contract of section 4.2, as the
    handlers enforce it: the phase must be the handler's and the declared
    index must equal the cursor. *)
Definition expect_phase (p : Phase) (s : Session) : result unit :=
  match phase s with
  | Some q => if Phase_eqb p q then Ok tt else Raise ProtocolSequenceError
  | None => Raise ProtocolSequenceError
  end.

(** Modelled from the spec: the declared index must equal the cursor
    (section 3, [input_cursor] and [output_cursor]); a request that declares
    none does not. *)
Definition expect_index (declared : option Z) (cursor : Z) : result unit :=
  match declared with
  | Some i => if (i =? cursor)%Z then Ok tt else Raise ProtocolSequenceError
  | None => Raise ProtocolSequenceError
  end.

(** Modelled from the spec: the session secret and the signing key exist
    from INIT on (section 4.2); a session without them is out of sequence. *)
Definition the_secret (s : Session) : result (Secret P) :=
  match session_secret s with
  | Some k => Ok k
  | None => Raise ProtocolSequenceError
  end.

(** Modelled from the spec: the key handle of the keychain service
    (section 6), kept for the signing operation. *)
Definition the_key (s : Session) : result (KeyHandle P) :=
  match signing_key s with
  | Some k => Ok k
  | None => Raise ProtocolSequenceError
  end.

(** Modelled from the spec: a payload that comes back from the host must
    pass [verify] keyed on the index the engine expects, else the session
    is aborted with [IntegrityError] (sections 4.1 and 7). *)
Definition check_offloaded (s : Session) (payload authentication_tag
    : option bytes) : result bytes :=
  k <- the_secret s ;;
  match payload, authentication_tag with
  | Some p, Some t =>
    if verify k (input_cursor s) p t then Ok p else Raise IntegrityError
  | _, _ => Raise IntegrityError
  end.

(** Modelled from the spec: the phase and cursor after one more input of
    the phase [p] (section 4.2, "On success advances to"): the same phase
    with the next index while inputs remain, else [next] from index 0. *)
Definition next_input (p next : Phase) (s : Session) : option Phase * Z :=
  if (input_cursor s + 1 <? input_count s)%Z
  then (Some p, (input_cursor s + 1)%Z)
  else (Some next, 0%Z).

(** Modelled from the spec: INIT.  The declared counts are checked against
    the ceiling before the keychain is consulted and before any field of the
    session is set (sections 4.3 and 7). *)
Definition init_transaction (s : Session) (address_n : list Z)
    (network_type : option Z) (tsx_data : option TsxData)
    (keychain : KeychainService P) : result (Ack * Session) :=
  expect_phase INIT s ;;;
  match tsx_data with
  | None => Raise (DataError "Missing transaction parameters")
  | Some parameters =>
    if (count_ceiling P <? num_inputs parameters)%Z
       || (count_ceiling P <? num_outputs parameters)%Z
    then Raise LimitExceededError
    else
      key <- derive_signing_key P keychain address_n ;;
      Ok (InitAck,
          {| phase := Some SET_INPUT;
             input_count := num_inputs parameters;
             output_count := num_outputs parameters;
             input_cursor := 0; output_cursor := 0;
             pseudo_output_sum := 0; output_commitment_sum := 0;
             signing_key := Some key;
             session_secret := Some (derive_session_secret P key);
             signatures_so_far := [] |})
  end.

(** Modelled from the spec: SET_INPUT folds the input into the
    pseudo-output sum and offloads its state under a tag. *)
Definition set_input (s : Session) (src_entr : option Descriptor)
    : result (Ack * Session) :=
  expect_phase SET_INPUT s ;;;
  expect_index (option_map declared_index src_entr) (input_cursor s) ;;;
  k <- the_secret s ;;
  match src_entr with
  | None => Raise ProtocolSequenceError
  | Some input =>
    let '(phase', cursor') := next_input SET_INPUT INPUT_VINI s in
    Ok (SetInputAck (item_state input)
          (tag k (input_cursor s) (item_state input)),
        {| phase := phase';
           input_count := input_count s; output_count := output_count s;
           input_cursor := cursor'; output_cursor := output_cursor s;
           pseudo_output_sum :=
             sc_add (pseudo_output_sum s) (commitment input);
           output_commitment_sum := output_commitment_sum s;
           signing_key := signing_key s; session_secret := session_secret s;
           signatures_so_far := signatures_so_far s |})
  end.

(** Modelled from the spec: INPUT_VINI takes back the offloaded input and
    verifies its tag. *)
Definition input_vini (s : Session) (src_entr : option Descriptor)
    (vini vini_hmac : option bytes) (orig_idx : option Z)
    : result (Ack * Session) :=
  expect_phase INPUT_VINI s ;;;
  expect_index orig_idx (input_cursor s) ;;;
  check_offloaded s vini vini_hmac ;;;
  let '(phase', cursor') := next_input INPUT_VINI ALL_INPUTS_SET s in
  Ok (InputViniAck,
      {| phase := phase';
         input_count := input_count s; output_count := output_count s;
         input_cursor := cursor'; output_cursor := output_cursor s;
         pseudo_output_sum := pseudo_output_sum s;
         output_commitment_sum := output_commitment_sum s;
         signing_key := signing_key s; session_secret := session_secret s;
         signatures_so_far := signatures_so_far s |}).

(** Modelled from the spec: the barrier after the inputs. *)
Definition all_inputs_set (s : Session) : result (Ack * Session) :=
  expect_phase ALL_INPUTS_SET s ;;;
  Ok (AllInputsSetAck,
      {| phase := Some SET_OUTPUT;
         input_count := input_count s; output_count := output_count s;
         input_cursor := 0; output_cursor := 0;
         pseudo_output_sum := pseudo_output_sum s;
         output_commitment_sum := output_commitment_sum s;
         signing_key := signing_key s; session_secret := session_secret s;
         signatures_so_far := signatures_so_far s |}).

(** Modelled from the spec: SET_OUTPUT folds the output into the
    output-commitment sum. *)
Definition set_output (s : Session) (dst_entr : option Descriptor)
    (dst_entr_hmac : option bytes) (rsig_data : option bytes)
    (is_offloaded_bp : bool) : result (Ack * Session) :=
  expect_phase SET_OUTPUT s ;;;
  expect_index (option_map declared_index dst_entr) (output_cursor s) ;;;
  k <- the_secret s ;;
  match dst_entr with
  | None => Raise ProtocolSequenceError
  | Some output =>
    Ok (SetOutputAck (item_state output)
          (tag k (output_cursor s) (item_state output)),
        {| phase :=
             if (output_cursor s + 1 <? output_count s)%Z
             then Some SET_OUTPUT else Some ALL_OUTPUTS_SET;
           input_count := input_count s; output_count := output_count s;
           input_cursor := input_cursor s;
           output_cursor := (output_cursor s + 1)%Z;
           pseudo_output_sum := pseudo_output_sum s;
           output_commitment_sum :=
             sc_add (output_commitment_sum s) (commitment output);
           signing_key := signing_key s; session_secret := session_secret s;
           signatures_so_far := signatures_so_far s |})
  end.

(** Modelled from the spec: [finalize_balance_check] at the barrier after
    the outputs: the two running sums must be equal in the group's scalar
    arithmetic, else the session is aborted with [IntegrityError]. *)
Definition all_outputs_set (s : Session) : result (Ack * Session) :=
  expect_phase ALL_OUTPUTS_SET s ;;;
  if sc_eq (pseudo_output_sum s) (output_commitment_sum s)
  then
    Ok (AllOutSetAck,
        {| phase := Some SIGN_INPUT;
           input_count := input_count s; output_count := output_count s;
           input_cursor := 0; output_cursor := output_cursor s;
           pseudo_output_sum := pseudo_output_sum s;
           output_commitment_sum := output_commitment_sum s;
           signing_key := signing_key s; session_secret := session_secret s;
           signatures_so_far := signatures_so_far s |})
  else Raise IntegrityError.

(** Modelled from the spec: SIGN_INPUT verifies the tag of the input that
    comes back and signs it with the key of the keychain. *)
Definition sign_input (s : Session) (src_entr : option Descriptor)
    (vini vini_hmac pseudo_out pseudo_out_hmac pseudo_out_alpha spend_key
     : option bytes) (orig_idx : option Z) : result (Ack * Session) :=
  expect_phase SIGN_INPUT s ;;;
  expect_index orig_idx (input_cursor s) ;;;
  payload <- check_offloaded s vini vini_hmac ;;
  key <- the_key s ;;
  signature <- sign P key payload ;;
  let '(phase', cursor') := next_input SIGN_INPUT FINAL s in
  Ok (SignInputAck signature,
      {| phase := phase';
         input_count := input_count s; output_count := output_count s;
         input_cursor := cursor'; output_cursor := output_cursor s;
         pseudo_output_sum := pseudo_output_sum s;
         output_commitment_sum := output_commitment_sum s;
         signing_key := signing_key s; session_secret := session_secret s;
         signatures_so_far := signatures_so_far s ++ [signature] |}).

(** Modelled from the spec: the Finalizer (section 4.4) assembles the
    acknowledgment and wipes the key and the session secret. *)
Definition final_msg (s : Session) : result (Ack * Session) :=
  expect_phase FINAL s ;;;
  Ok (FinalAck (signatures_so_far s),
      {| phase := None;
         input_count := input_count s; output_count := output_count s;
         input_cursor := input_cursor s; output_cursor := output_cursor s;
         pseudo_output_sum := pseudo_output_sum s;
         output_commitment_sum := output_commitment_sum s;
         signing_key := None; session_secret := None;
         signatures_so_far := signatures_so_far s |}).

(** Modelled from the spec: the package [apps.monero.signing], being the
    handlers above behind the interface [sign_tx] is written against. *)
Definition steps : SigningSteps :=
  {| State := Session;
     Keychain := KeychainService P;
     Response := Ack;
     MoneroTransactionData := TsxData;
     MoneroTransactionSourceEntry := Descriptor;
     MoneroTransactionDestinationEntry := Descriptor;
     MoneroTransactionRsigData := bytes;
     State_new := Session_new;
     Monero.init_transaction := init_transaction;
     Monero.set_input := set_input;
     Monero.input_vini := input_vini;
     Monero.all_inputs_set := all_inputs_set;
     Monero.set_output := set_output;
     Monero.all_outputs_set := all_outputs_set;
     Monero.sign_input := sign_input;
     Monero.final_msg := final_msg |}.

(** Modelled from the spec: the index a request declares, for the phases
    whose requests carry one (section 4.2, column "Accepts"): the one of the
    descriptor for SET_INPUT and SET_OUTPUT, [orig_idx] for INPUT_VINI and
    SIGN_INPUT. *)
Definition request_index (msg : Msg steps) : option Z :=
  match phase_of (MESSAGE_WIRE_TYPE msg) with
  | Some SET_INPUT => option_map declared_index (src_entr msg)
  | Some SET_OUTPUT => option_map declared_index (dst_entr msg)
  | Some INPUT_VINI | Some SIGN_INPUT => orig_idx msg
  | _ => None
  end.

(** Modelled from the spec: the phases whose requests carry an index. *)
Definition carries_index (t : MessageType) : bool :=
  match phase_of t with
  | Some SET_INPUT | Some INPUT_VINI | Some SET_OUTPUT | Some SIGN_INPUT =>
    true
  | _ => false
  end.

(** Modelled from the spec: the cursor a request's index is compared
    with. *)
Definition cursor_for (t : MessageType) (s : Session) : Z :=
  match phase_of t with
  | Some SET_OUTPUT => output_cursor s
  | _ => input_cursor s
  end.

End Handlers.

End SpecModel.

(** ** A small instance to run the model on

    Stand-ins for the black boxes, good enough to evaluate the protocol on
    concrete requests: a group of order 101, a ceiling of 16 items, a tag
    that writes the secret, the index and the payload one after the other,
    and a signature that writes the key before the message. *)
Module Example.

Import SpecModel.

Definition primitives : Primitives :=
  {| group_order := 101;
     count_ceiling := 16;
     KeychainService := bytes;
     KeyHandle := bytes;
     Secret := bytes;
     derive_signing_key := fun keychain _ => Ok keychain;
     derive_session_secret := fun key => key ++ [Byte.x01];
     mac := fun secret index payload =>
       secret ++ repeat Byte.xff (Z.to_nat index) ++ Byte.x00 :: payload;
     sign := fun key message => Ok (key ++ message) |}.

Definition S : SigningSteps := steps primitives.

Definition keychain : Keychain S := [Byte.x2a].

Definition secret : Secret primitives := [Byte.x2a; Byte.x01].

(** A message of wire type [t] with no attribute set. *)
Definition blank (t : MessageType) : Msg S :=
  {| MESSAGE_WIRE_TYPE := t;
     address_n := []; network_type := None; tsx_data := None;
     src_entr := None; vini := None; vini_hmac := None; orig_idx := None;
     is_offloaded_bp := None; dst_entr := None; dst_entr_hmac := None;
     rsig_data := None; pseudo_out := None; pseudo_out_hmac := None;
     pseudo_out_alpha := None; spend_key := None |}.

Definition init_request (inputs outputs : Z) : Msg S :=
  {| MESSAGE_WIRE_TYPE := MoneroTransactionInitRequest;
     address_n := [44; 128; 0]%Z; network_type := Some 0%Z;
     tsx_data :=
       (Some {| num_inputs := inputs; num_outputs := outputs |}
        : option (MoneroTransactionData S));
     src_entr := None; vini := None; vini_hmac := None; orig_idx := None;
     is_offloaded_bp := None; dst_entr := None; dst_entr_hmac := None;
     rsig_data := None; pseudo_out := None; pseudo_out_hmac := None;
     pseudo_out_alpha := None; spend_key := None |}.

Definition descriptor (index value : Z) : Descriptor :=
  {| declared_index := index; commitment := value;
     item_state := [Byte.x10] |}.

Definition set_input_request (index value : Z) : Msg S :=
  {| MESSAGE_WIRE_TYPE := MoneroTransactionSetInputRequest;
     address_n := []; network_type := None; tsx_data := None;
     src_entr :=
       (Some (descriptor index value)
        : option (MoneroTransactionSourceEntry S));
     vini := None; vini_hmac := None; orig_idx := None;
     is_offloaded_bp := None; dst_entr := None; dst_entr_hmac := None;
     rsig_data := None; pseudo_out := None; pseudo_out_hmac := None;
     pseudo_out_alpha := None; spend_key := None |}.

(** An offloaded input coming back under the tag issued for [issued]. *)
Definition offloaded_request (t : MessageType) (index issued : Z) : Msg S :=
  {| MESSAGE_WIRE_TYPE := t;
     address_n := []; network_type := None; tsx_data := None;
     src_entr :=
       (Some (descriptor index 0)
        : option (MoneroTransactionSourceEntry S));
     vini := Some [Byte.x10];
     vini_hmac := Some (tag primitives secret issued [Byte.x10]);
     orig_idx := Some index;
     is_offloaded_bp := None; dst_entr := None; dst_entr_hmac := None;
     rsig_data := None; pseudo_out := None; pseudo_out_hmac := None;
     pseudo_out_alpha := None; spend_key := None |}.

Definition set_output_request (index value : Z) : Msg S :=
  {| MESSAGE_WIRE_TYPE := MoneroTransactionSetOutputRequest;
     address_n := []; network_type := None; tsx_data := None;
     src_entr := None; vini := None; vini_hmac := None; orig_idx := None;
     is_offloaded_bp := Some false;
     dst_entr :=
       (Some (descriptor index value)
        : option (MoneroTransactionDestinationEntry S));
     dst_entr_hmac := None;
     rsig_data := None; pseudo_out := None; pseudo_out_hmac := None;
     pseudo_out_alpha := None; spend_key := None |}.

(** The host of the specification's happy path, after its INIT request for
    two inputs and two outputs; the commitments are 30 + 172 on the input
    side and 1 + 100 on the output side, equal modulo 101. *)
Definition happy_path : list (Msg S) :=
  [ set_input_request 0 30; set_input_request 1 172;
    offloaded_request MoneroTransactionInputViniRequest 0 0;
    offloaded_request MoneroTransactionInputViniRequest 1 1;
    blank MoneroTransactionAllInputsSetRequest;
    set_output_request 0 1; set_output_request 1 100;
    blank MoneroTransactionAllOutSetRequest;
    offloaded_request MoneroTransactionSignInputRequest 0 0;
    offloaded_request MoneroTransactionSignInputRequest 1 1;
    blank MoneroTransactionFinalRequest ].

Definition host (requests : list (Msg S)) : Context S :=
  {| read_any := read_expected; incoming := requests |}.

(** The session of the happy path when the barrier after the outputs is
    due, and the same session with the second output commitment perturbed. *)
Definition session_at_barrier (outputs_sum : Z) : Session primitives :=
  {| phase := Some ALL_OUTPUTS_SET;
     input_count := 2; output_count := 2;
     input_cursor := 0; output_cursor := 2;
     pseudo_output_sum := 0; output_commitment_sum := outputs_sum;
     signing_key := (Some keychain : option (KeyHandle primitives));
     session_secret := (Some secret : option (Secret primitives));
     signatures_so_far := [] |}.

(** The session of the happy path after both SET_INPUT requests, when the
    first INPUT_VINI request is due. *)
Definition session_after_inputs : Session primitives :=
  {| phase := Some INPUT_VINI;
     input_count := 2; output_count := 2;
     input_cursor := 0; output_cursor := 0;
     pseudo_output_sum := 0; output_commitment_sum := 0;
     signing_key := (Some keychain : option (KeyHandle primitives));
     session_secret := (Some secret : option (Secret primitives));
     signatures_so_far := [] |}.


End Example.

End Monero.

(** * Cardano: [apps/cardano/auxiliary_data.py] *)
Module Cardano.

(** The two members of [CardanoGovernanceRegistrationFormat] the module
    names. *)
Inductive CardanoGovernanceRegistrationFormat : Type :=
| CIP15
| CIP36.

Definition Format_eqb (a b : CardanoGovernanceRegistrationFormat) : bool :=
  match a, b with
  | CIP15, CIP15 | CIP36, CIP36 => true
  | _, _ => false
  end.

Definition _AUXILIARY_DATA_HASH_SIZE : nat := 32.
Definition _GOVERNANCE_VOTING_PUBLIC_KEY_LENGTH : nat := 32.
Definition _MAX_DELEGATION_COUNT : nat := 32.

Definition assert_cond (condition : bool) : result unit :=
  if negb condition
  then Raise (ProcessError "Invalid auxiliary data")
  else Ok tt.

(** A [for] loop whose body may raise. *)
Fixpoint for_each {A : Type} (body : A -> result unit) (l : list A)
    : result unit :=
  match l with
  | [] => Ok tt
  | x :: l => body x ;;; for_each body l
  end.

Section AuxiliaryData.

(** What the module imports from files that are not among the sources: the
    address parameters message with its [address_type], the enum member
    [CardanoAddressType.BYRON], the path schema
    [SCHEMA_STAKING_ANY_ACCOUNT] (its [match] method) and
    [addresses.validate_address_parameters]. *)
Variable CardanoAddressParametersType : Type.
Variable CardanoAddressType : Type.
Variable BYRON : CardanoAddressType.
Variable CardanoAddressType_eqb :
  CardanoAddressType -> CardanoAddressType -> bool.
Variable address_type : CardanoAddressParametersType -> CardanoAddressType.
Variable SCHEMA_STAKING_ANY_ACCOUNT_match : list Z -> bool.
Variable validate_address_parameters :
  CardanoAddressParametersType -> result unit.

Record CardanoGovernanceDelegation : Type := {
  delegation_voting_public_key : bytes;
  weight : Z
}.

Record CardanoGovernanceRegistrationParametersType : Type := {
  voting_public_key : option bytes;
  staking_path : list Z;
  reward_address_parameters : CardanoAddressParametersType;
  nonce : Z;
  format : CardanoGovernanceRegistrationFormat;
  delegations : list CardanoGovernanceDelegation;
  voting_purpose : option Z
}.

Record CardanoTxAuxiliaryData : Type := {
  governance_registration_parameters :
    option CardanoGovernanceRegistrationParametersType;
  hash : option bytes
}.

Definition _validate_voting_public_key (key : bytes) : result unit :=
  assert_cond (Nat.eqb (List.length key) _GOVERNANCE_VOTING_PUBLIC_KEY_LENGTH).

Definition _validate_delegations
    (delegations : list CardanoGovernanceDelegation) : result unit :=
  assert_cond (Nat.leb (List.length delegations) _MAX_DELEGATION_COUNT) ;;;
  for_each
    (fun delegation =>
       _validate_voting_public_key (delegation_voting_public_key delegation))
    delegations.

Definition _validate_governance_registration_parameters
    (parameters : CardanoGovernanceRegistrationParametersType)
    : result unit :=
  let voting_key_fields_provided := 0 in
  voting_key_fields_provided <-
    match voting_public_key parameters with
    | Some key =>
      let voting_key_fields_provided := voting_key_fields_provided + 1 in
      _validate_voting_public_key key ;;;
      Ok voting_key_fields_provided
    | None => Ok voting_key_fields_provided
    end ;;
  voting_key_fields_provided <-
    (if truthy_list (delegations parameters) then
       let voting_key_fields_provided := voting_key_fields_provided + 1 in
       assert_cond (Format_eqb (format parameters) CIP36) ;;;
       _validate_delegations (delegations parameters) ;;;
       Ok voting_key_fields_provided
     else Ok voting_key_fields_provided) ;;
  assert_cond (Nat.eqb voting_key_fields_provided 1) ;;;
  assert_cond (SCHEMA_STAKING_ANY_ACCOUNT_match (staking_path parameters)) ;;;
  let address_parameters := reward_address_parameters parameters in
  assert_cond
    (negb (CardanoAddressType_eqb (address_type address_parameters) BYRON)) ;;;
  validate_address_parameters address_parameters ;;;
  match voting_purpose parameters with
  | Some _ => assert_cond (Format_eqb (format parameters) CIP36)
  | None => Ok tt
  end.

(** [validate].  [if auxiliary_data.hash] is the truthiness of an optional
    byte string: false for [None] and for the empty string.  A message
    object is true whenever it is there. *)
Definition validate (auxiliary_data : CardanoTxAuxiliaryData) : result unit :=
  let fields_provided := 0 in
  fields_provided <-
    match hash auxiliary_data with
    | Some ((_ :: _) as h) =>
      let fields_provided := fields_provided + 1 in
      assert_cond (Nat.eqb (List.length h) _AUXILIARY_DATA_HASH_SIZE) ;;;
      Ok fields_provided
    | _ => Ok fields_provided
    end ;;
  fields_provided <-
    match governance_registration_parameters auxiliary_data with
    | Some parameters =>
      let fields_provided := fields_provided + 1 in
      _validate_governance_registration_parameters parameters ;;;
      Ok fields_provided
    | None => Ok fields_provided
    end ;;
  assert_cond (Nat.eqb fields_provided 1).

(** The two fields as [validate] counts them. *)
Definition hash_provided (auxiliary_data : CardanoTxAuxiliaryData) : bool :=
  truthy_bytes (hash auxiliary_data).

Definition parameters_provided (auxiliary_data : CardanoTxAuxiliaryData)
    : bool :=
  truthy_object (governance_registration_parameters auxiliary_data).

(** A provided field is valid when its own validation raises nothing. *)
Definition hash_valid (auxiliary_data : CardanoTxAuxiliaryData) : Prop :=
  exists h, hash auxiliary_data = Some h /\ List.length h = 32.

Definition parameters_valid (auxiliary_data : CardanoTxAuxiliaryData)
    : Prop :=
  exists parameters,
    governance_registration_parameters auxiliary_data = Some parameters /\
    _validate_governance_registration_parameters parameters = Ok tt.

(** ** Serialization, signing and display of a registration *)

Definition _GOVERNANCE_REGISTRATION_HASH_SIZE : nat := 32.
Definition _METADATA_KEY_GOVERNANCE_REGISTRATION : Z := 61284.
Definition _METADATA_KEY_GOVERNANCE_REGISTRATION_SIGNATURE : Z := 61285.
Definition _DEFAULT_VOTING_PURPOSE : Z := 0.

Definition _get_voting_purpose_to_serialize
    (parameters : CardanoGovernanceRegistrationParametersType) : option Z :=
  if Format_eqb (format parameters) CIP15 then None
  else
    match voting_purpose parameters with
    | None => Some _DEFAULT_VOTING_PURPOSE
    | Some purpose => Some purpose
    end.

(** The Python values handed to [cbor.encode]: integers, byte strings,
    lists, tuples, and dictionaries with integer keys, a dictionary being
    its items in insertion order. *)
Inductive CborValue : Type :=
| CborInt (n : Z)
| CborBytes (b : bytes)
| CborList (items : list CborValue)
| CborTuple (items : list CborValue)
| CborDict (items : list (Z * CborValue)).

(** What the module calls in files that are not among the sources: the
    keychain with [keychain.derive] and the two private keys of a node,
    [helpers.utils.derive_public_key], [addresses.derive_bytes],
    [addresses.derive_human_readable], [cbor.encode], the digest of
    [hashlib.blake2b(data, outlen)], [ed25519.sign_ext], [bech32.encode] and
    the prefix [bech32.HRP_GOVERNANCE_PUBLIC_KEY]. *)
Variable Keychain : Type.
Variable Node : Type.
Variable keychain_derive : Keychain -> list Z -> result Node.
Variable private_key : Node -> bytes.
Variable private_key_ext : Node -> bytes.
Variable derive_public_key : Keychain -> list Z -> result bytes.
Variable derive_bytes :
  Keychain -> CardanoAddressParametersType -> Z -> Z -> result bytes.
Variable derive_human_readable :
  Keychain -> CardanoAddressParametersType -> Z -> Z -> result string.
Variable cbor_encode : CborValue -> bytes.
Variable blake2b : bytes -> nat -> bytes.
Variable ed25519_sign_ext : bytes -> bytes -> bytes -> bytes.
Variable bech32_encode : string -> bytes -> string.
Variable HRP_GOVERNANCE_PUBLIC_KEY : string.

Definition GovernanceRegistrationPayload : Type := list (Z * CborValue).

Definition _create_governance_registration_payload_signature
    (keychain : Keychain)
    (governance_registration_payload : GovernanceRegistrationPayload)
    (path : list Z) : result bytes :=
  node <- keychain_derive keychain path ;;
  let encoded_governance_registration :=
    cbor_encode
      (CborDict [(_METADATA_KEY_GOVERNANCE_REGISTRATION,
                  CborDict governance_registration_payload)]) in
  let governance_registration_hash :=
    blake2b encoded_governance_registration
      _GOVERNANCE_REGISTRATION_HASH_SIZE in
  Ok (ed25519_sign_ext (private_key node) (private_key_ext node)
        governance_registration_hash).

Definition _get_signed_governance_registration_payload (keychain : Keychain)
    (parameters : CardanoGovernanceRegistrationParametersType)
    (protocol_magic network_id : Z)
    : result (GovernanceRegistrationPayload * bytes) :=
  delegations_or_key <-
    (if Nat.ltb 0 (List.length (delegations parameters)) then
       Ok (CborList
             (map (fun delegation =>
                     CborTuple
                       [CborBytes (delegation_voting_public_key delegation);
                        CborInt (weight delegation)])
                (delegations parameters)))
     else
       match voting_public_key parameters with
       | Some ((_ :: _) as key) => Ok (CborBytes key)
       | _ => Raise (OtherException "RuntimeError")
       end) ;;
  staking_key <- derive_public_key keychain (staking_path parameters) ;;
  reward_address <-
    derive_bytes keychain (reward_address_parameters parameters)
      protocol_magic network_id ;;
  let voting_purpose := _get_voting_purpose_to_serialize parameters in
  let payload : GovernanceRegistrationPayload :=
    [(1, delegations_or_key); (2, CborBytes staking_key);
     (3, CborBytes reward_address); (4, CborInt (nonce parameters))]%Z in
  let payload :=
    match voting_purpose with
    | Some purpose => payload ++ [(5%Z, CborInt purpose)]
    | None => payload
    end in
  signature <-
    _create_governance_registration_payload_signature keychain payload
      (staking_path parameters) ;;
  Ok (payload, signature).

Definition _get_governance_registration_hash
    (governance_registration_payload : GovernanceRegistrationPayload)
    (governance_registration_payload_signature : bytes) : bytes :=
  let governance_registration_signature :=
    [(1%Z, CborBytes governance_registration_payload_signature)] in
  let cborized_catalyst_registration :=
    [(_METADATA_KEY_GOVERNANCE_REGISTRATION,
      CborDict governance_registration_payload);
     (_METADATA_KEY_GOVERNANCE_REGISTRATION_SIGNATURE,
      CborDict governance_registration_signature)] in
  let metadata :=
    CborTuple [CborDict cborized_catalyst_registration; CborTuple []] in
  let auxiliary_data := cbor_encode metadata in
  blake2b auxiliary_data _AUXILIARY_DATA_HASH_SIZE.

Inductive CardanoTxAuxiliaryDataSupplementType : Type :=
| NONE
| GOVERNANCE_REGISTRATION_SIGNATURE.

Record CardanoTxAuxiliaryDataSupplement : Type := {
  type : CardanoTxAuxiliaryDataSupplementType;
  auxiliary_data_hash : option bytes;
  governance_signature : option bytes
}.

Definition get_hash_and_supplement (keychain : Keychain)
    (auxiliary_data : CardanoTxAuxiliaryData) (protocol_magic network_id : Z)
    : result (bytes * CardanoTxAuxiliaryDataSupplement) :=
  match governance_registration_parameters auxiliary_data with
  | Some parameters =>
    '(governance_registration_payload, governance_signature) <-
      _get_signed_governance_registration_payload keychain parameters
        protocol_magic network_id ;;
    let auxiliary_data_hash :=
      _get_governance_registration_hash governance_registration_payload
        governance_signature in
    let auxiliary_data_supplement :=
      {| type := GOVERNANCE_REGISTRATION_SIGNATURE;
         auxiliary_data_hash := Some auxiliary_data_hash;
         governance_signature := Some governance_signature |} in
    Ok (auxiliary_data_hash, auxiliary_data_supplement)
  | None =>
    match hash auxiliary_data with
    | None => Raise (OtherException "AssertionError")
    | Some h =>
      Ok (h, {| type := NONE; auxiliary_data_hash := None;
                governance_signature := None |})
    end
  end.

(** The dialogs of [layout] the module shows, each with the arguments it is
    called with. *)
Inductive Dialog : Type :=
| confirm_governance_registration_delegation
    (encoded_public_key : string) (weight : Z)
| confirm_governance_registration
    (encoded_public_key : option string) (staking_path : list Z)
    (reward_address : string) (nonce : Z) (voting_purpose : option Z)
| show_auxiliary_data_hash (auxiliary_data_hash : bytes).

(** A coroutine that shows dialogs: from the dialogs shown so far to its
    outcome and the dialogs shown when it ends. *)
Definition Screen (A : Type) : Type := list Dialog -> result A * list Dialog.

(** The [layout] package is not among the sources.  A call of one of its
    functions shows the dialog and returns or raises as the user decides;
    [user shown dialog] is that decision, given the dialogs shown before. *)
Variable user : list Dialog -> Dialog -> result unit.

Definition layout (dialog : Dialog) : Screen unit :=
  fun shown => (user shown dialog, shown ++ [dialog]).

(** [all_confirmed shown confirmed]: shown one after the other after
    [shown], each of the dialogs [confirmed] was confirmed by the user. *)
Definition all_confirmed (shown confirmed : list Dialog) : Prop :=
  forall before dialog after,
    confirmed = before ++ dialog :: after ->
    user (shown ++ before) dialog = Ok tt.

Definition screen_bind {A B : Type} (m : Screen A) (k : A -> Screen B)
    : Screen B :=
  fun shown =>
    match m shown with
    | (Ok a, shown) => k a shown
    | (Raise e, shown) => (Raise e, shown)
    end.

Definition screen_ret {A : Type} (a : A) : Screen A :=
  fun shown => (Ok a, shown).

Definition screen_lift {A : Type} (r : result A) : Screen A :=
  fun shown => (r, shown).

(** A [for] loop whose body shows dialogs. *)
Fixpoint screen_for_each {A : Type} (body : A -> Screen unit) (l : list A)
    : Screen unit :=
  match l with
  | [] => screen_ret tt
  | x :: l => screen_bind (body x) (fun _ => screen_for_each body l)
  end.

Definition _show_governance_registration (keychain : Keychain)
    (parameters : CardanoGovernanceRegistrationParametersType)
    (protocol_magic network_id : Z) (should_show_details : bool)
    : Screen unit :=
  screen_bind
    (screen_for_each
       (fun delegation =>
          let encoded_public_key :=
            bech32_encode HRP_GOVERNANCE_PUBLIC_KEY
              (delegation_voting_public_key delegation) in
          layout
            (confirm_governance_registration_delegation encoded_public_key
               (weight delegation)))
       (delegations parameters))
    (fun _ =>
       let encoded_public_key :=
         match voting_public_key parameters with
         | Some ((_ :: _) as key) =>
           Some (bech32_encode HRP_GOVERNANCE_PUBLIC_KEY key)
         | _ => None
         end in
       screen_bind
         (screen_lift
            (derive_human_readable keychain
               (reward_address_parameters parameters)
               protocol_magic network_id))
         (fun reward_address =>
            let voting_purpose :=
              if should_show_details
              then _get_voting_purpose_to_serialize parameters
              else None in
            layout
              (confirm_governance_registration encoded_public_key
                 (staking_path parameters) reward_address (nonce parameters)
                 voting_purpose))).

Definition show (keychain : Keychain) (auxiliary_data_hash : bytes)
    (parameters : option CardanoGovernanceRegistrationParametersType)
    (protocol_magic network_id : Z) (should_show_details : bool)
    : Screen unit :=
  screen_bind
    match parameters with
    | Some parameters =>
      _show_governance_registration keychain parameters protocol_magic
        network_id should_show_details
    | None => screen_ret tt
    end
    (fun _ =>
       if should_show_details
       then layout (show_auxiliary_data_hash auxiliary_data_hash)
       else screen_ret tt).

End AuxiliaryData.

(** ** A small instance to run [validate] on

    Address parameters without content, an address type that is never
    BYRON, a path schema that matches every path and a validator of address
    parameters that accepts everything. *)
Module Example.

Definition run (auxiliary_data : CardanoTxAuxiliaryData unit)
    : result unit :=
  validate true Bool.eqb (fun _ => false) (fun _ => true) (fun _ => Ok tt)
    auxiliary_data.

Definition registration : CardanoGovernanceRegistrationParametersType unit :=
  {| voting_public_key := Some (repeat Byte.x02 32);
     staking_path := [1852; 1815; 0; 2; 0]%Z;
     reward_address_parameters := tt;
     nonce := 7;
     format := CIP15;
     delegations := [];
     voting_purpose := None |}.

(** [validate] with a validator of address parameters that refuses every
    reward address with an error of its own. *)
Definition run_refusing_address (auxiliary_data : CardanoTxAuxiliaryData unit)
    : result unit :=
  validate true Bool.eqb (fun _ => false) (fun _ => true)
    (fun _ => Raise (ProcessError "Invalid address parameters"))
    auxiliary_data.

(** Auxiliary data with both fields: a hash of 32 bytes and the
    registration. *)
Definition both_fields : CardanoTxAuxiliaryData unit :=
  {| governance_registration_parameters := Some registration;
     hash := Some (repeat Byte.x01 32) |}.

(** A CIP36 registration that delegates to one key, with a voting
    purpose. *)
Definition registration_cip36
    : CardanoGovernanceRegistrationParametersType unit :=
  {| voting_public_key := None;
     staking_path := [1852; 1815; 0; 2; 0]%Z;
     reward_address_parameters := tt;
     nonce := 7;
     format := CIP36;
     delegations :=
       [{| delegation_voting_public_key := repeat Byte.x03 32;
           weight := 1 |}];
     voting_purpose := Some 1%Z |}.

(** Stand-ins for the keychain, the encoder, the digest and the signature:
    every derivation returns, the encoding is one byte, the digest is
    [outlen] zero bytes and the signature is the digest. *)
Definition run_validate_parameters
    (parameters : CardanoGovernanceRegistrationParametersType unit)
    : result unit :=
  _validate_governance_registration_parameters true Bool.eqb (fun _ => false)
    (fun _ => true) (fun _ => Ok tt) parameters.

Definition run_signed_payload
    (parameters : CardanoGovernanceRegistrationParametersType unit)
    : result (GovernanceRegistrationPayload * bytes) :=
  _get_signed_governance_registration_payload
    (Keychain := unit) (Node := unit)
    (fun _ _ => Ok tt) (fun _ => [Byte.x0a]) (fun _ => [Byte.x0b])
    (fun _ _ => Ok [Byte.x02]) (fun _ _ _ _ => Ok [Byte.x03])
    (fun _ => [Byte.x00]) (fun _ outlen => repeat Byte.x00 outlen)
    (fun _ _ digest => digest)
    tt parameters 764824073 1.

Definition run_hash_and_supplement
    (auxiliary_data : CardanoTxAuxiliaryData unit)
    : result (bytes * CardanoTxAuxiliaryDataSupplement) :=
  get_hash_and_supplement
    (Keychain := unit) (Node := unit)
    (fun _ _ => Ok tt) (fun _ => [Byte.x0a]) (fun _ => [Byte.x0b])
    (fun _ _ => Ok [Byte.x02]) (fun _ _ _ _ => Ok [Byte.x03])
    (fun _ => [Byte.x00]) (fun _ outlen => repeat Byte.x00 outlen)
    (fun _ _ digest => digest)
    tt auxiliary_data 764824073 1.

(** A user who confirms everything, and one who cancels at the
    registration dialog. *)
Definition confirming (shown : list Dialog) (dialog : Dialog) : result unit :=
  Ok tt.

Definition cancelling (shown : list Dialog) (dialog : Dialog) : result unit :=
  match dialog with
  | confirm_governance_registration _ _ _ _ _ => Raise ActionCancelled
  | _ => Ok tt
  end.

Definition run_show (user : list Dialog -> Dialog -> result unit)
    (should_show_details : bool) : result unit * list Dialog :=
  show (Keychain := unit) (fun _ _ _ _ => Ok "stake1u"%string)
    (fun hrp _ => hrp) "gov_vk"%string user tt (repeat Byte.x01 32)
    (Some registration_cip36) 764824073 1 should_show_details [].

(** The same with a reward address that cannot be derived, and a user
    who confirms everything. *)
Definition run_show_without_address (should_show_details : bool)
    : result unit * list Dialog :=
  show (Keychain := unit)
    (fun _ _ _ _ => Raise (ProcessError "Invalid address parameters"))
    (fun hrp _ => hrp) "gov_vk"%string confirming tt (repeat Byte.x01 32)
    (Some registration_cip36) 764824073 1 should_show_details [].

End Example.

End Cardano.

(** * Recovery: [apps/management/recovery_device/homescreen.py] *)
Module Recovery.

(** The members of [MessageType] that [recovery_process] names. *)
Inductive MessageType : Type :=
| Initialize
| GetFeatures
| OtherMessageType (wire_type : Z).

Section RecoveryProcess.

(** The persistent storage of the device and the three calls into it,
    [storage_recovery.is_dry_run], [storage_recovery.end_progress] and
    [storage.wipe]; the [storage] package is not among the sources. *)
Variable Storage : Type.
Variable is_dry_run : Storage -> bool.
Variable end_progress : Storage -> Storage.
Variable wipe : Storage -> Storage.

Variable GenericContext : Type.
Variable Success : Type.

(** What [recovery_process] can change: the storage and the module
    attribute [wire.AVOID_RESTARTING_FOR]. *)
Record World : Type := {
  storage : Storage;
  AVOID_RESTARTING_FOR : list MessageType
}.

(** A coroutine over the world returns or raises, and leaves a world. *)
Definition Workflow (A : Type) : Type := World -> result A * World.

(** [_continue_recovery_process] talks to the user through [layout] and
    [recover], neither of which is among the sources; [recovery_process]
    only depends on how it ends. *)
Variable _continue_recovery_process : GenericContext -> Workflow Success.

Definition set_storage (s : Storage) (w : World) : World :=
  {| storage := s; AVOID_RESTARTING_FOR := AVOID_RESTARTING_FOR w |}.

(** The world after the assignment to [wire.AVOID_RESTARTING_FOR]. *)
Definition entered (w : World) : World :=
  {| storage := storage w;
     AVOID_RESTARTING_FOR := [Initialize; GetFeatures] |}.

Definition recovery_process (ctx : GenericContext) : Workflow Success :=
  fun w =>
    let w := entered w in
    match _continue_recovery_process ctx w with
    | (Raise RecoveryAborted, w) =>
      let dry_run := is_dry_run (storage w) in
      let w :=
        if dry_run
        then set_storage (end_progress (storage w)) w
        else set_storage (wipe (storage w)) w in
      (Raise ActionCancelled, w)
    | (outcome, w) => (outcome, w)
    end.

End RecoveryProcess.

(** ** The steps of [_continue_recovery_process] *)

(** The members of [trezor.enums.BackupType]. *)
Inductive BackupType : Type :=
| Bip39
| Slip39_Basic
| Slip39_Advanced.

(** [trezor.messages.Success]. *)
Record Success : Type := {
  message : string
}.

(** [s.split(" ")]: the pieces of [s] between single spaces, empty pieces
    included; the empty string gives one empty piece. *)
Fixpoint split_space (s : string) : list string :=
  match s with
  | EmptyString => [EmptyString]
  | String c s =>
    if Ascii.eqb c " "%char then EmptyString :: split_space s
    else
      match split_space s with
      | piece :: pieces => String c piece :: pieces
      | [] => [String c EmptyString]
      end
  end.

(** [enumerate(l)]. *)
Definition enumerate {A : Type} (l : list A) : list (Z * A) :=
  combine (map Z.of_nat (seq 0 (List.length l))) l.

(** [l[0]]. *)
Definition first_item {A : Type} (l : list A) : result A :=
  match l with
  | x :: _ => Ok x
  | [] => Raise (OtherException "IndexError")
  end.

(** An entry of the set [groups]: the shares a group still needs and the
    first words of one of its mnemonics. *)
Definition Group : Type := (Z * list string)%type.

Definition Group_eq_dec : forall a b : Group, {a = b} + {a <> b}.
Proof.
  decide equality; [ apply (list_eq_dec string_dec) | apply Z.eq_dec ].
Defined.

(** [groups.add(group)]. *)
Definition groups_add (group : Group) (groups : list Group) : list Group :=
  if in_dec Group_eq_dec group groups then groups else groups ++ [group].

Section Steps.

(** What the steps call in files that are not among the sources: the
    getters and setters of [storage.device], [storage.recovery] and
    [storage.recovery_shares], [mnemonic.get_secret], the digest of
    [sha256], [utils.consteq], the two predicates of [backup_types],
    [slip39.MAX_SHARE_COUNT], [slip39.decode_mnemonic] with the
    [group_threshold] of a share, [strings.format_plural], and the dialogs
    of [layout] and [show_success]. *)
Variable Storage : Type.
Variable store_mnemonic_secret :
  bytes -> BackupType -> bool -> bool -> Storage -> Storage.
Variable storage_device_get_slip39_identifier : Storage -> option Z.
Variable storage_device_get_slip39_iteration_exponent : Storage -> option Z.
Variable storage_device_set_slip39_identifier : Z -> Storage -> Storage.
Variable storage_device_set_slip39_iteration_exponent :
  Z -> Storage -> Storage.
Variable storage_recovery_get_slip39_identifier : Storage -> option Z.
Variable storage_recovery_get_slip39_iteration_exponent :
  Storage -> option Z.
Variable end_progress : Storage -> Storage.
Variable fetch_slip39_remaining_shares : Storage -> option (list Z).
Variable get_slip39_group_count : Storage -> Z.
Variable fetch_group : Z -> Storage -> list string.
Variable get_secret : Storage -> option bytes.
Variable sha256 : bytes -> bytes.
Variable consteq : bytes -> bytes -> bool.
Variable is_slip39_backup_type : BackupType -> bool.
Variable is_slip39_word_count : Z -> bool.
Variable MAX_SHARE_COUNT : Z.
Variable Share : Type.
Variable decode_mnemonic : string -> result Share.
Variable group_threshold : Share -> Z.
Variable format_plural : string -> Z -> string -> string.

Variable GenericContext : Type.
Variable show_dry_run_result :
  GenericContext -> bool -> bool -> Workflow Storage unit.
Variable show_success :
  GenericContext -> string -> string -> Workflow Storage unit.
Variable show_remaining_shares :
  GenericContext -> list Group -> list Z -> Z -> Workflow Storage unit.
Variable homescreen_dialog :
  GenericContext -> string -> string -> option string ->
  option (GenericContext -> Workflow Storage unit) -> Workflow Storage unit.

(** [in_range r]: the group has entered shares and still needs [r]. *)
Definition in_range (remaining : Z) : Prop :=
  (0 <= remaining < MAX_SHARE_COUNT)%Z.

(** [a == b] on two values that are an integer or [None]. *)
Definition optional_eqb (a b : option Z) : bool :=
  match a, b with
  | Some x, Some y => Z.eqb x y
  | None, None => true
  | _, _ => false
  end.

Definition _finish_recovery_dry_run (ctx : GenericContext) (secret : bytes)
    (backup_type : option BackupType) : Workflow Storage Success :=
  fun w =>
    match backup_type with
    | None => (Raise (OtherException "RuntimeError"), w)
    | Some backup_type =>
      let digest_input := sha256 secret in
      match get_secret (storage w) with
      | None => (Raise (OtherException "TypeError"), w)
      | Some stored =>
        let digest_stored := sha256 stored in
        let result := consteq digest_stored digest_input in
        let is_slip39 := is_slip39_backup_type backup_type in
        let result :=
          if is_slip39 then
            let result :=
              result
              && optional_eqb
                   (storage_device_get_slip39_identifier (storage w))
                   (storage_recovery_get_slip39_identifier (storage w)) in
            result
            && optional_eqb
                 (storage_device_get_slip39_iteration_exponent (storage w))
                 (storage_recovery_get_slip39_iteration_exponent (storage w))
          else result in
        let w := set_storage (end_progress (storage w)) w in
        match show_dry_run_result ctx result is_slip39 w with
        | (Raise e, w) => (Raise e, w)
        | (Ok _, w) =>
          if result then
            (Ok {| message :=
                     "The seed is valid and matches the one in the device" |},
             w)
          else
            (Raise
               (ProcessError "The seed does not match the one in the device"),
             w)
        end
      end
    end.

Definition _finish_recovery (ctx : GenericContext) (secret : bytes)
    (backup_type : option BackupType) : Workflow Storage Success :=
  fun w =>
    match backup_type with
    | None => (Raise (OtherException "RuntimeError"), w)
    | Some backup_type =>
      let w :=
        set_storage
          (store_mnemonic_secret secret backup_type false false (storage w))
          w in
      let slip39 :=
        match backup_type with
        | Slip39_Basic | Slip39_Advanced => true
        | Bip39 => false
        end in
      let stored :=
        if slip39 then
          let identifier :=
            storage_recovery_get_slip39_identifier (storage w) in
          let exponent :=
            storage_recovery_get_slip39_iteration_exponent (storage w) in
          match identifier, exponent with
          | Some identifier, Some exponent =>
            let w :=
              set_storage
                (storage_device_set_slip39_identifier identifier (storage w))
                w in
            Ok (set_storage
                  (storage_device_set_slip39_iteration_exponent exponent
                     (storage w))
                  w)
          | _, _ => Raise (OtherException "RuntimeError")
          end
        else Ok w in
      match stored with
      | Raise e => (Raise e, w)
      | Ok w =>
        let w := set_storage (end_progress (storage w)) w in
        match
          show_success ctx "success_recovery"
            "You have successfully recovered your wallet." w
        with
        | (Raise e, w) => (Raise e, w)
        | (Ok _, w) => (Ok {| message := "Device recovered" |}, w)
        end
      end
    end.

(** The first loop of [_show_remaining_groups_and_shares]. *)
Definition first_entered_index (shares_remaining : list Z) : Z :=
  fold_left
    (fun first_entered_index '(i, group_count) =>
       if (group_count <? MAX_SHARE_COUNT)%Z then i else first_entered_index)
    (enumerate shares_remaining) (-1)%Z.

(** The second loop of [_show_remaining_groups_and_shares], from the pair
    ([groups], [share]) it has reached, over the groups still to visit. *)
Fixpoint collect_groups (s : Storage) (first_entered_index : Z)
    (todo : list (Z * Z)) (groups : list Group) (share : option Share)
    : result (list Group * option Share) :=
  match todo with
  | [] => Ok (groups, share)
  | (index, remaining) :: todo =>
    '(groups, share) <-
      (if (0 <=? remaining)%Z && (remaining <? MAX_SHARE_COUNT)%Z then
         m <- first_item (fetch_group index s) ;;
         share <-
           match share with
           | None => decoded <- decode_mnemonic m ;; Ok (Some decoded)
           | Some _ => Ok share
           end ;;
         let identifier := firstn 3 (split_space m) in
         Ok (groups_add (remaining, identifier) groups, share)
       else if (remaining =? MAX_SHARE_COUNT)%Z then
         m <- first_item (fetch_group first_entered_index s) ;;
         let identifier := firstn 2 (split_space m) in
         Ok (groups_add (remaining, identifier) groups, share)
       else Ok (groups, share)) ;;
    collect_groups s first_entered_index todo groups share
  end.

Definition _show_remaining_groups_and_shares (ctx : GenericContext)
    : Workflow Storage unit :=
  fun w =>
    match fetch_slip39_remaining_shares (storage w) with
    | None | Some [] => (Raise (OtherException "AssertionError"), w)
    | Some shares_remaining =>
      let groups := [] in
      let first_entered_index := first_entered_index shares_remaining in
      let share := None in
      match
        collect_groups (storage w) first_entered_index
          (enumerate shares_remaining) groups share
      with
      | Raise e => (Raise e, w)
      | Ok (groups, None) => (Raise (OtherException "AssertionError"), w)
      | Ok (groups, Some share) =>
        show_remaining_shares ctx groups shares_remaining
          (group_threshold share) w
      end
    end.

Definition _request_share_next_screen (ctx : GenericContext)
    : Workflow Storage unit :=
  fun w =>
    let remaining := fetch_slip39_remaining_shares (storage w) in
    let group_count := get_slip39_group_count (storage w) in
    match remaining with
    | None | Some [] => (Raise (OtherException "RuntimeError"), w)
    | Some (first_remaining :: _) =>
      if (1 <? group_count)%Z then
        homescreen_dialog ctx "Enter" "More shares needed" None
          (Some _show_remaining_groups_and_shares) w
      else
        let text :=
          format_plural "{count} more {plural}" first_remaining "share" in
        homescreen_dialog ctx "Enter share" text (Some "needed to enter"%string)
          None w
    end.

(** [f"({word_count} words)"]. *)
Definition words_in_brackets (word_count : Z) : string :=
  ("(" ++ DecimalString.NilZero.string_of_int (Z.to_int word_count)
   ++ " words)")%string.

Definition _request_share_first_screen (ctx : GenericContext)
    (word_count : Z) : Workflow Storage unit :=
  fun w =>
    if is_slip39_word_count word_count then
      let remaining := fetch_slip39_remaining_shares (storage w) in
      if truthy_list
           match remaining with
           | Some remaining => remaining
           | None => []
           end
      then _request_share_next_screen ctx w
      else
        homescreen_dialog ctx "Enter share" "Enter any share"
          (Some (words_in_brackets word_count)) None w
    else
      homescreen_dialog ctx "Enter seed" "Enter recovery seed"
        (Some (words_in_brackets word_count)) None w.

End Steps.

(** ** A small storage to run [recovery_process] on *)
Module Example.

(** A device storage with the seed and label it holds and the record of a
    recovery in progress. *)
Record Storage : Type := {
  device : option (bytes * string);
  recovery_in_progress : bool;
  recovery_dry_run : bool;
  recovery_shares : list bytes
}.

Definition is_dry_run (s : Storage) : bool := recovery_dry_run s.

Definition end_progress (s : Storage) : Storage :=
  {| device := device s;
     recovery_in_progress := false;
     recovery_dry_run := false;
     recovery_shares := [] |}.

Definition wipe (s : Storage) : Storage :=
  {| device := None;
     recovery_in_progress := false;
     recovery_dry_run := false;
     recovery_shares := [] |}.

(** The user cancels at the first dialog. *)
Definition user_aborts (ctx : unit) : Workflow Storage unit :=
  fun w => (Raise RecoveryAborted, w).

Definition initialized (dry_run : bool) : World Storage :=
  {| storage :=
       {| device := Some ([Byte.x5e; Byte.xed], "My Trezor"%string);
          recovery_in_progress := true;
          recovery_dry_run := dry_run;
          recovery_shares := [[Byte.x01]] |};
     AVOID_RESTARTING_FOR := [] |}.

(** Stand-ins for the rest of the storage and for the dialogs: the secret
    is the one kept with the device, storing a secret replaces it, the
    recovery storage holds no SLIP-39 identifier, the digest is the secret
    itself, and every dialog returns at once. *)
Definition get_secret (s : Storage) : option bytes :=
  option_map fst (device s).

Definition store_mnemonic_secret (secret : bytes) (backup_type : BackupType)
    (needs_backup no_backup : bool) (s : Storage) : Storage :=
  {| device := Some (secret, EmptyString);
     recovery_in_progress := recovery_in_progress s;
     recovery_dry_run := recovery_dry_run s;
     recovery_shares := recovery_shares s |}.

Definition same_bytes (a b : bytes) : bool :=
  if list_eq_dec Byte.byte_eq_dec a b then true else false.

Definition dry_run (secret : bytes) (backup_type : option BackupType)
    : result Success * World Storage :=
  _finish_recovery_dry_run (fun _ => None) (fun _ => None) (fun _ => None)
    (fun _ => None) end_progress get_secret (fun secret => secret)
    same_bytes (fun _ => false) (fun (_ : unit) _ _ w => (Ok tt, w))
    tt secret backup_type (initialized true).

Definition finish (secret : bytes) (backup_type : option BackupType)
    : result Success * World Storage :=
  _finish_recovery store_mnemonic_secret (fun _ s => s) (fun _ s => s)
    (fun _ => None) (fun _ => None) end_progress
    (fun (_ : unit) _ _ w => (Ok tt, w))
    tt secret backup_type (initialized false).

End Example.

End Recovery.

(** * Properties of [sign_tx] and [_sign_tx_dispatch] *)
Module SignTxProofs.

Import Monero.

Section Generic.

Context {S : SigningSteps}.

Lemma returning_Ok : forall accept_msgs (step : result (Response S * State S))
    result_msg accept state,
  returning accept_msgs step = Ok (result_msg, accept, state) ->
  accept = accept_msgs /\ step = Ok (result_msg, state).
Proof.
  intros accept_msgs [[r st] | e] result_msg accept state H;
    cbn in H; [ injection H as -> <- ->; auto | discriminate ].
Qed.

Lemma dispatch_Ok : forall (state : State S) msg keychain result_msg
    accept_msgs state',
  _sign_tx_dispatch state msg keychain = Ok (result_msg, accept_msgs, state') ->
  phase_of (MESSAGE_WIRE_TYPE msg) <> None /\
  accept_msgs = accept_after (MESSAGE_WIRE_TYPE msg).
Proof.
  intros state msg keychain result_msg accept_msgs state'.
  unfold _sign_tx_dispatch.
  destruct (MESSAGE_WIRE_TYPE msg); cbn;
    try discriminate;
    intros H; apply returning_Ok in H as [-> _]; split; congruence.
Qed.

Lemma dispatch_final : forall (state : State S) msg keychain,
  MESSAGE_WIRE_TYPE msg = MoneroTransactionFinalRequest ->
  _sign_tx_dispatch state msg keychain = returning None (final_msg S state).
Proof.
  intros state msg keychain H. unfold _sign_tx_dispatch. rewrite H.
  reflexivity.
Qed.

Lemma accept_None_final : forall t,
  phase_of t <> None -> accept_after t = None ->
  t = MoneroTransactionFinalRequest.
Proof.
  intros [] Hp Ha; cbn in *; congruence.
Qed.

Lemma accept_Some_not_final : forall t accept_msgs,
  accept_after t = Some accept_msgs -> t <> MoneroTransactionFinalRequest.
Proof.
  intros t accept_msgs H ->. discriminate.
Qed.

Lemma accept_after_not_earlier : forall t accept_msgs t',
  accept_after t = Some accept_msgs -> In t' accept_msgs -> not_earlier t t'.
Proof.
  intros t accept_msgs t' Ha Hin.
  destruct t; cbn in Ha; try discriminate;
    injection Ha as <-; cbn in Hin;
    repeat (destruct Hin as [<- | Hin]; [ cbv; lia | ]);
    contradiction.
Qed.

Lemma not_earlier_trans : forall a b c,
  not_earlier a b -> not_earlier b c -> not_earlier a c.
Proof.
  unfold not_earlier. intros a b c.
  destruct (phase_of a), (phase_of b), (phase_of c); try tauto. lia.
Qed.

Lemma trace_of_after : forall events (o : Outcome S),
  trace_of (after events o) = events ++ trace_of o.
Proof. intros events []; reflexivity. Qed.

(** The handler the dispatcher calls for a request of each wire type, with
    the arguments it passes on, and the accept tuple it returns next to the
    handler's response. *)
Lemma dispatch_cases : forall (state : State S) msg keychain,
  _sign_tx_dispatch state msg keychain
  = match MESSAGE_WIRE_TYPE msg with
    | MoneroTransactionInitRequest =>
      returning (Some [MoneroTransactionSetInputRequest])
        (init_transaction S state (address_n msg) (network_type msg)
           (tsx_data msg) keychain)
    | MoneroTransactionSetInputRequest =>
      returning
        (Some [MoneroTransactionSetInputRequest;
               MoneroTransactionInputViniRequest])
        (set_input S state (src_entr msg))
    | MoneroTransactionInputViniRequest =>
      returning
        (Some [MoneroTransactionInputViniRequest;
               MoneroTransactionAllInputsSetRequest])
        (input_vini S state (src_entr msg) (vini msg) (vini_hmac msg)
           (orig_idx msg))
    | MoneroTransactionAllInputsSetRequest =>
      returning (Some [MoneroTransactionSetOutputRequest])
        (all_inputs_set S state)
    | MoneroTransactionSetOutputRequest =>
      returning
        (Some [MoneroTransactionSetOutputRequest;
               MoneroTransactionAllOutSetRequest])
        (set_output S state (dst_entr msg) (dst_entr_hmac msg)
           (rsig_data msg) (truthy_bool (is_offloaded_bp msg)))
    | MoneroTransactionAllOutSetRequest =>
      returning (Some [MoneroTransactionSignInputRequest])
        (all_outputs_set S state)
    | MoneroTransactionSignInputRequest =>
      returning
        (Some [MoneroTransactionSignInputRequest;
               MoneroTransactionFinalRequest])
        (sign_input S state (src_entr msg) (vini msg) (vini_hmac msg)
           (pseudo_out msg) (pseudo_out_hmac msg) (pseudo_out_alpha msg)
           (spend_key msg) (orig_idx msg))
    | MoneroTransactionFinalRequest => returning None (final_msg S state)
    | OtherMessageType _ => Raise (DataError "Unknown message")
    end.
Proof.
  intros state msg keychain. unfold _sign_tx_dispatch.
  destruct (MESSAGE_WIRE_TYPE msg); reflexivity.
Qed.

Lemma returning_step : forall accept_msgs
    (step : result (Response S * State S)),
  (forall result_msg state,
     step = Ok (result_msg, state) ->
     returning accept_msgs step = Ok (result_msg, accept_msgs, state)) /\
  (forall e, step = Raise e -> returning accept_msgs step = Raise e).
Proof.
  intros accept_msgs step. split; intros; subst; reflexivity.
Qed.

(** C2.  For each of the eight request kinds the dispatcher handles, it
    calls the step handler of that kind and, when the handler returns a
    response, returns that response together with the accept tuple of the
    phase table: after INIT only SET_INPUT; after SET_INPUT, SET_INPUT or
    INPUT_VINI; after INPUT_VINI, INPUT_VINI or ALL_INPUTS_SET; after
    ALL_INPUTS_SET only SET_OUTPUT; after SET_OUTPUT, SET_OUTPUT or
    ALL_OUTPUTS_SET; after ALL_OUTPUTS_SET only SIGN_INPUT; after
    SIGN_INPUT, SIGN_INPUT or FINAL; after FINAL nothing ([None], on which
    the loop ends).  An exception of the handler is passed on.  Whenever the
    dispatcher returns, the tuple is the one of the table for the wire type
    of the request, and a request of any other wire type never makes it
    return. *)
Theorem dispatch_accept_msgs : forall (state : State S) msg keychain,
  let handled accept_msgs (step : result (Response S * State S)) :=
    (forall result_msg state',
       step = Ok (result_msg, state') ->
       _sign_tx_dispatch state msg keychain
         = Ok (result_msg, accept_msgs, state')) /\
    (forall e,
       step = Raise e -> _sign_tx_dispatch state msg keychain = Raise e) in
  match MESSAGE_WIRE_TYPE msg with
  | MoneroTransactionInitRequest =>
    handled (Some [MoneroTransactionSetInputRequest])
      (init_transaction S state (address_n msg) (network_type msg)
         (tsx_data msg) keychain)
  | MoneroTransactionSetInputRequest =>
    handled
      (Some [MoneroTransactionSetInputRequest;
             MoneroTransactionInputViniRequest])
      (set_input S state (src_entr msg))
  | MoneroTransactionInputViniRequest =>
    handled
      (Some [MoneroTransactionInputViniRequest;
             MoneroTransactionAllInputsSetRequest])
      (input_vini S state (src_entr msg) (vini msg) (vini_hmac msg)
         (orig_idx msg))
  | MoneroTransactionAllInputsSetRequest =>
    handled (Some [MoneroTransactionSetOutputRequest])
      (all_inputs_set S state)
  | MoneroTransactionSetOutputRequest =>
    handled
      (Some [MoneroTransactionSetOutputRequest;
             MoneroTransactionAllOutSetRequest])
      (set_output S state (dst_entr msg) (dst_entr_hmac msg) (rsig_data msg)
         (truthy_bool (is_offloaded_bp msg)))
  | MoneroTransactionAllOutSetRequest =>
    handled (Some [MoneroTransactionSignInputRequest])
      (all_outputs_set S state)
  | MoneroTransactionSignInputRequest =>
    handled
      (Some [MoneroTransactionSignInputRequest;
             MoneroTransactionFinalRequest])
      (sign_input S state (src_entr msg) (vini msg) (vini_hmac msg)
         (pseudo_out msg) (pseudo_out_hmac msg) (pseudo_out_alpha msg)
         (spend_key msg) (orig_idx msg))
  | MoneroTransactionFinalRequest => handled None (final_msg S state)
  | OtherMessageType _ =>
    _sign_tx_dispatch state msg keychain = Raise (DataError "Unknown message")
  end /\
  (forall result_msg accept_msgs state',
     _sign_tx_dispatch state msg keychain
       = Ok (result_msg, accept_msgs, state') ->
     match MESSAGE_WIRE_TYPE msg with
     | MoneroTransactionInitRequest =>
       accept_msgs = Some [MoneroTransactionSetInputRequest]
     | MoneroTransactionSetInputRequest =>
       accept_msgs = Some [MoneroTransactionSetInputRequest;
                           MoneroTransactionInputViniRequest]
     | MoneroTransactionInputViniRequest =>
       accept_msgs = Some [MoneroTransactionInputViniRequest;
                           MoneroTransactionAllInputsSetRequest]
     | MoneroTransactionAllInputsSetRequest =>
       accept_msgs = Some [MoneroTransactionSetOutputRequest]
     | MoneroTransactionSetOutputRequest =>
       accept_msgs = Some [MoneroTransactionSetOutputRequest;
                           MoneroTransactionAllOutSetRequest]
     | MoneroTransactionAllOutSetRequest =>
       accept_msgs = Some [MoneroTransactionSignInputRequest]
     | MoneroTransactionSignInputRequest =>
       accept_msgs = Some [MoneroTransactionSignInputRequest;
                           MoneroTransactionFinalRequest]
     | MoneroTransactionFinalRequest => accept_msgs = None
     | OtherMessageType _ => False
     end).
Proof.
  intros state msg keychain. cbv zeta. split.
  - rewrite (dispatch_cases state msg keychain).
    destruct (MESSAGE_WIRE_TYPE msg);
      try apply returning_step; reflexivity.
  - intros result_msg accept_msgs state' H.
    apply dispatch_Ok in H as [Hphase ->].
    destruct (MESSAGE_WIRE_TYPE msg); cbn in *; congruence.
Qed.




Lemma loop_sorted : forall read_any keychain,
  (forall accept_msgs next m,
     read_any accept_msgs next = Ok m ->
     In (MESSAGE_WIRE_TYPE m) accept_msgs) ->
  forall (pending : list (Msg S)) (state : State S) msg,
  Sorted not_earlier
    (map MESSAGE_WIRE_TYPE
       (msg :: received
                 (trace_of (sign_tx_loop read_any state msg keychain pending)))).
Proof.
  intros read_any keychain Hread.
  induction pending as [| next pending IH]; intros state msg;
    cbn [sign_tx_loop];
    destruct (_sign_tx_dispatch state msg keychain)
      as [[[r [acc |]] st] | e] eqn:D;
    try (cbn; repeat constructor; fail).
  destruct (read_any acc next) as [m | e] eqn:R;
    [ | cbn; repeat constructor ].
  rewrite !trace_of_after. cbn.
  specialize (IH st m). cbn in IH.
  constructor; [ exact IH | ]. constructor.
  apply dispatch_Ok in D as [_ D].
  eapply accept_after_not_earlier; [ symmetry; exact D | ].
  eapply Hread; exact R.
Qed.

(** C4.  When the wire context only hands over requests whose wire type is
    in the accept tuple returned with the previous response, the requests
    [sign_tx] processes, in the order it processes them, never go back in
    the order INIT < SET_INPUT < INPUT_VINI < ALL_INPUTS_SET < SET_OUTPUT <
    ALL_OUTPUTS_SET < SIGN_INPUT < FINAL: the phase of every request is at
    or after the phase of every request accepted before it. *)
Theorem phase_never_regresses : forall (ctx : Context S) first keychain,
  (forall accept_msgs next m,
     read_any ctx accept_msgs next = Ok m ->
     In (MESSAGE_WIRE_TYPE m) accept_msgs) ->
  StronglySorted not_earlier
    (map MESSAGE_WIRE_TYPE
       (first :: received (trace_of (sign_tx ctx first keychain)))).
Proof.
  intros ctx first keychain Hread.
  apply Sorted_StronglySorted.
  - intros a b c. apply not_earlier_trans.
  - unfold sign_tx. apply loop_sorted. exact Hread.
Qed.

Lemma after_Returned : forall events (o : Outcome S) result_msg trace,
  after events o = Returned result_msg trace ->
  exists trace', o = Returned result_msg trace' /\ trace = events ++ trace'.
Proof.
  intros events [r t | e t | a t] result_msg trace H; cbn in H;
    try discriminate.
  injection H as -> <-. eauto.
Qed.

Lemma loop_write_then_read : forall read_any keychain
    (pending : list (Msg S)) (state : State S) msg,
  write_then_read
    (trace_of (sign_tx_loop read_any state msg keychain pending)) = true.
Proof.
  intros read_any keychain.
  induction pending as [| next pending IH]; intros state msg;
    cbn [sign_tx_loop];
    destruct (_sign_tx_dispatch state msg keychain)
      as [[[r [acc |]] st] | e];
    try reflexivity.
  destruct (read_any acc next) as [m | e]; [ | reflexivity ].
  rewrite !trace_of_after. cbn. apply IH.
Qed.

Lemma loop_final_last : forall read_any keychain
    (pending : list (Msg S)) (state : State S) msg,
  Forall (fun m => MESSAGE_WIRE_TYPE m <> MoneroTransactionFinalRequest)
    (removelast
       (msg :: received
                 (trace_of (sign_tx_loop read_any state msg keychain pending)))).
Proof.
  intros read_any keychain.
  induction pending as [| next pending IH]; intros state msg;
    cbn [sign_tx_loop];
    destruct (_sign_tx_dispatch state msg keychain)
      as [[[r [acc |]] st] | e] eqn:D;
    try (cbn; constructor; fail).
  destruct (read_any acc next) as [m | e]; [ | cbn; constructor ].
  rewrite !trace_of_after.
  cbn [app received].
  change (removelast (msg :: m :: ?l)) with (msg :: removelast (m :: l)).
  constructor; [ | apply IH ].
  apply dispatch_Ok in D as [_ D].
  eapply accept_Some_not_final. symmetry. exact D.
Qed.

Lemma loop_Returned : forall read_any keychain
    (pending : list (Msg S)) (state : State S) msg result_msg trace,
  sign_tx_loop read_any state msg keychain pending
    = Returned result_msg trace ->
  exists state' last_msg state'',
    rounds read_any keychain state msg pending trace state' last_msg /\
    MESSAGE_WIRE_TYPE last_msg = MoneroTransactionFinalRequest /\
    final_msg S state' = Ok (result_msg, state'').
Proof.
  intros read_any keychain.
  assert (Last : forall (state : State S) msg r st rest,
    _sign_tx_dispatch state msg keychain = Ok (r, None, st) ->
    exists state' last_msg state'',
      rounds read_any keychain state msg rest [] state' last_msg /\
      MESSAGE_WIRE_TYPE last_msg = MoneroTransactionFinalRequest /\
      final_msg S state' = Ok (r, state'')).
  { intros state msg r st rest D.
    pose proof (dispatch_Ok _ _ _ D) as [Hp Ha].
    pose proof (accept_None_final _ Hp (eq_sym Ha)) as Hf.
    rewrite (dispatch_final _ _ _ Hf) in D.
    apply returning_Ok in D as [_ D].
    exists state, msg, st. split; [ constructor | auto ]. }
  induction pending as [| next pending IH];
    intros state msg result_msg trace;
    cbn [sign_tx_loop];
    destruct (_sign_tx_dispatch state msg keychain)
      as [[[r [acc |]] st] | e] eqn:D;
    try discriminate;
    try (intros H; injection H as <- <-; eapply Last; exact D).
  destruct (read_any acc next) as [m | e] eqn:R; [ | discriminate ].
  intros H.
  apply after_Returned in H as (t1 & H & ->).
  apply after_Returned in H as (t2 & H & ->).
  apply IH in H as (state' & last_msg & state'' & Hr & Hf & Hm).
  exists state', last_msg, state''. split; [ | auto ].
  cbn. econstructor; eassumption.
Qed.

Lemma rounds_Returned : forall read_any keychain (state : State S) msg
    pending trace state' last_msg result_msg state'',
  rounds read_any keychain state msg pending trace state' last_msg ->
  MESSAGE_WIRE_TYPE last_msg = MoneroTransactionFinalRequest ->
  final_msg S state' = Ok (result_msg, state'') ->
  sign_tx_loop read_any state msg keychain pending
    = Returned result_msg trace.
Proof.
  intros read_any keychain state msg pending trace state' last_msg
    result_msg state'' Hr Hf Hm.
  induction Hr as [state msg pending
                  | state msg r acc state1 next pending msg1 trace
                      state' msg' D R Hr IH].
  - assert (D : _sign_tx_dispatch state msg keychain
                = Ok (result_msg, None, state'')).
    { rewrite (dispatch_final _ _ _ Hf), Hm. reflexivity. }
    destruct pending; cbn; rewrite D; reflexivity.
  - cbn [sign_tx_loop]. rewrite D, R, (IH Hf Hm). reflexivity.
Qed.

Lemma after_after : forall events events' (o : Outcome S),
  after events (after events' o) = after (events ++ events') o.
Proof.
  intros events events' [r t | e t | a t]; cbn; rewrite app_assoc;
    reflexivity.
Qed.

(** Every run of the loop is a number of rounds followed by one of four
    endings, decided by what the dispatcher does with the request at hand
    after the rounds and by what is left of the host's messages. *)
Lemma loop_ends : forall read_any keychain (pending : list (Msg S))
    (state : State S) msg,
  exists trace state' last_msg,
    rounds read_any keychain state msg pending trace state' last_msg /\
    match _sign_tx_dispatch state' last_msg keychain with
    | Raise e =>
      sign_tx_loop read_any state msg keychain pending = Raised e trace
    | Ok (result_msg, None, _) =>
      sign_tx_loop read_any state msg keychain pending
        = Returned result_msg trace
    | Ok (result_msg, Some accept_msgs, _) =>
      match skipn (List.length (received trace)) pending with
      | [] =>
        sign_tx_loop read_any state msg keychain pending
          = Awaiting accept_msgs (trace ++ [Written result_msg])
      | next :: _ =>
        exists e,
          read_any accept_msgs next = Raise e /\
          sign_tx_loop read_any state msg keychain pending
            = Raised e (trace ++ [Written result_msg])
      end
    end.
Proof.
  intros read_any keychain.
  induction pending as [| next pending IH]; intros state msg.
  - exists [], state, msg. split; [ constructor | ].
    cbn [sign_tx_loop].
    destruct (_sign_tx_dispatch state msg keychain)
      as [[[r [acc |]] st] | e]; reflexivity.
  - destruct (_sign_tx_dispatch state msg keychain)
      as [[[r [acc |]] st] | e] eqn:D.
    + destruct (read_any acc next) as [m | e] eqn:R.
      * destruct (IH st m) as (trace & state' & last_msg & Hr & He).
        exists (Written r :: Received m :: trace), state', last_msg.
        split; [ econstructor; eassumption | ].
        cbn [sign_tx_loop]. rewrite D, R, after_after.
        cbn [received List.length skipn app].
        destruct (_sign_tx_dispatch state' last_msg keychain)
          as [[[r' [acc' |]] st'] | e'].
        -- destruct (skipn (List.length (received trace)) pending)
             as [| next' rest].
           ++ rewrite He. reflexivity.
           ++ destruct He as (e & Re & He). exists e.
              split; [ exact Re | rewrite He; reflexivity ].
        -- rewrite He. reflexivity.
        -- rewrite He. reflexivity.
      * exists [], state, msg. split; [ constructor | ].
        rewrite D. cbn [received List.length skipn].
        exists e. split; [ exact R | ].
        cbn [sign_tx_loop]. rewrite D, R. reflexivity.
    + exists [], state, msg. split; [ constructor | ].
      rewrite D. cbn [sign_tx_loop]. rewrite D. reflexivity.
    + exists [], state, msg. split; [ constructor | ].
      rewrite D. cbn [sign_tx_loop]. rewrite D. reflexivity.
Qed.

(** C7.  In every run of [sign_tx] the trace on the wire is a sequence of
    rounds, each the one response to one request, written before the next
    request is read.  No request before the last one is the FINAL request.
    [sign_tx] returns exactly when, after such rounds, the request at hand
    is the FINAL request and its handler returns; the value returned is the
    acknowledgment of that handler, and it is not among the writes of the
    trace, which are the responses of the rounds before it.  Every run is
    such rounds followed by one of four endings, by what the dispatcher
    does with the request at hand: it raises, and [sign_tx] ends with the
    exception having written nothing for that request; it returns no accept
    tuple (the FINAL request), and [sign_tx] returns the response unwritten;
    or it returns a response with an accept tuple, the response is written,
    and then either the host has sent nothing more and [sign_tx] waits in
    [read_any], or [read_any] raises on the next message and [sign_tx] ends
    with that exception. *)
Theorem final_request_ends_loop : forall (ctx : Context S) first keychain,
  write_then_read (trace_of (sign_tx ctx first keychain)) = true /\
  Forall (fun m => MESSAGE_WIRE_TYPE m <> MoneroTransactionFinalRequest)
    (removelast (first :: received (trace_of (sign_tx ctx first keychain)))) /\
  (forall result_msg trace,
     sign_tx ctx first keychain = Returned result_msg trace <->
     exists state last_msg state',
       rounds (read_any ctx) keychain (State_new S) first (incoming ctx)
         trace state last_msg /\
       MESSAGE_WIRE_TYPE last_msg = MoneroTransactionFinalRequest /\
       final_msg S state = Ok (result_msg, state')) /\
  (exists trace state last_msg,
     rounds (read_any ctx) keychain (State_new S) first (incoming ctx)
       trace state last_msg /\
     match _sign_tx_dispatch state last_msg keychain with
     | Raise e => sign_tx ctx first keychain = Raised e trace
     | Ok (result_msg, None, _) =>
       sign_tx ctx first keychain = Returned result_msg trace
     | Ok (result_msg, Some accept_msgs, _) =>
       match skipn (List.length (received trace)) (incoming ctx) with
       | [] =>
         sign_tx ctx first keychain
           = Awaiting accept_msgs (trace ++ [Written result_msg])
       | next :: _ =>
         exists e,
           read_any ctx accept_msgs next = Raise e /\
           sign_tx ctx first keychain
             = Raised e (trace ++ [Written result_msg])
       end
     end).
Proof.
  intros ctx first keychain. unfold sign_tx.
  split; [ apply loop_write_then_read | ].
  split; [ apply loop_final_last | ].
  split; [ | apply loop_ends ].
  intros result_msg trace. split.
  - apply loop_Returned.
  - intros (state & last_msg & state' & Hr & Hf & Hm).
    eapply rounds_Returned; eassumption.
Qed.

End Generic.

(** ** With the step handlers of the specification *)
Section SpecModelled.

Import SpecModel.

Variable P : Primitives.

Lemma expect_phase_cases : forall p (s : Session P),
  expect_phase p s = Ok tt \/ expect_phase p s = Raise ProtocolSequenceError.
Proof.
  intros p s. unfold expect_phase.
  destruct (phase s) as [q |]; [ destruct (Phase_eqb p q) | ]; auto.
Qed.

Lemma expect_phase_Ok : forall p (s : Session P),
  phase s = Some p -> expect_phase p s = Ok tt.
Proof.
  intros p s H. unfold expect_phase. rewrite H.
  destruct p; reflexivity.
Qed.

Lemma expect_index_mismatch : forall declared cursor,
  declared <> Some cursor ->
  expect_index declared cursor = Raise ProtocolSequenceError.
Proof.
  intros [i |] cursor H; cbn; [ | reflexivity ].
  destruct (Z.eqb_spec i cursor) as [-> | _]; congruence.
Qed.

Lemma loop_raises : forall (S : SigningSteps) read_any (state : State S) msg
    keychain pending e,
  _sign_tx_dispatch state msg keychain = Raise e ->
  sign_tx_loop read_any state msg keychain pending = Raised e [].
Proof.
  intros S read_any state msg keychain pending e D.
  destruct pending; cbn; rewrite D; reflexivity.
Qed.

(** C1.  With the handlers of the specification: when the ALL_OUTPUTS_SET
    barrier request is dispatched in a session that has seen all its inputs
    and outputs, the two running sums are compared in the scalar arithmetic
    of the group.  If they differ the dispatcher raises [IntegrityError],
    [sign_tx] ends with it and nothing is written, so no signature leaves
    the device; if they are equal the dispatcher returns the barrier's
    acknowledgment with SIGN_INPUT as the only accepted request, the session
    is in phase SIGN_INPUT and holds no new signature. *)
Theorem balance_check_at_barrier : forall (s : Session P)
    (msg : Msg (steps P)) (keychain : Keychain (steps P)),
  MESSAGE_WIRE_TYPE msg = MoneroTransactionAllOutSetRequest ->
  phase s = Some ALL_OUTPUTS_SET ->
  ((pseudo_output_sum s mod group_order P
      <> output_commitment_sum s mod group_order P)%Z ->
   _sign_tx_dispatch (S := steps P) s msg keychain = Raise IntegrityError /\
   forall read_any pending,
     sign_tx_loop (S := steps P) read_any s msg keychain pending = Raised IntegrityError [])
  /\
  ((pseudo_output_sum s mod group_order P
      = output_commitment_sum s mod group_order P)%Z ->
   exists s' : Session P,
     _sign_tx_dispatch (S := steps P) s msg keychain
       = Ok (AllOutSetAck, Some [MoneroTransactionSignInputRequest], s') /\
     phase s' = Some SIGN_INPUT /\
     signatures_so_far s' = signatures_so_far s).
Proof.
  intros s msg keychain Hkind Hphase.
  assert (D : _sign_tx_dispatch (S := steps P) s msg keychain
              = returning (S := steps P)
                  (Some [MoneroTransactionSignInputRequest])
                  (all_outputs_set s)).
  { unfold _sign_tx_dispatch. rewrite Hkind. reflexivity. }
  unfold all_outputs_set, sc_eq in D.
  rewrite (expect_phase_Ok _ Hphase) in D. cbn [bind] in D.
  split; intros Hsum.
  - apply Z.eqb_neq in Hsum. rewrite Hsum in D. cbn in D.
    split; [ exact D | ].
    intros read_any pending. apply loop_raises. exact D.
  - apply Z.eqb_eq in Hsum. rewrite Hsum in D. cbn in D.
    eexists. split; [ exact D | ]. split; reflexivity.
Qed.

(** C6.  With the handlers of the specification: a SET_INPUT, INPUT_VINI,
    SET_OUTPUT or SIGN_INPUT request whose declared index is not the
    engine's cursor (behind it, ahead of it, or missing) is rejected with
    [ProtocolSequenceError]: the dispatcher raises, the item is not
    processed, and [sign_tx] ends with that error without writing a
    response. *)
Theorem index_mismatch_rejected : forall (s : Session P)
    (msg : Msg (steps P)) (keychain : Keychain (steps P)),
  carries_index (MESSAGE_WIRE_TYPE msg) = true ->
  request_index msg <> Some (cursor_for (MESSAGE_WIRE_TYPE msg) s) ->
  _sign_tx_dispatch (S := steps P) s msg keychain = Raise ProtocolSequenceError /\
  forall read_any pending,
    sign_tx_loop (S := steps P) read_any s msg keychain pending
      = Raised ProtocolSequenceError [].
Proof.
  intros s msg keychain Hc Hi.
  assert (D : _sign_tx_dispatch (S := steps P) s msg keychain = Raise ProtocolSequenceError).
  { unfold _sign_tx_dispatch, request_index, cursor_for in *.
    destruct (MESSAGE_WIRE_TYPE msg); try discriminate; cbn in *.
    - unfold set_input.
      destruct (expect_phase_cases SET_INPUT s) as [-> | ->];
        [ | reflexivity ].
      cbn [bind]. rewrite (expect_index_mismatch Hi). reflexivity.
    - unfold input_vini.
      destruct (expect_phase_cases INPUT_VINI s) as [-> | ->];
        [ | reflexivity ].
      cbn [bind]. rewrite (expect_index_mismatch Hi). reflexivity.
    - unfold set_output.
      destruct (expect_phase_cases SET_OUTPUT s) as [-> | ->];
        [ | reflexivity ].
      cbn [bind]. rewrite (expect_index_mismatch Hi). reflexivity.
    - unfold sign_input.
      destruct (expect_phase_cases SIGN_INPUT s) as [-> | ->];
        [ | reflexivity ].
      cbn [bind]. rewrite (expect_index_mismatch Hi). reflexivity. }
  split; [ exact D | ].
  intros read_any pending. apply loop_raises. exact D.
Qed.


End SpecModelled.

(** ** More on the loop of [sign_tx] *)
Section Loop.

Context {S : SigningSteps}.

Lemma MessageType_eqb_eq : forall a b, MessageType_eqb a b = true <-> a = b.
Proof.
  intros a b. split.
  - destruct a, b; cbn; try discriminate; try reflexivity.
    intros H. apply Z.eqb_eq in H. congruence.
  - intros <-. destruct a; cbn; try reflexivity. apply Z.eqb_refl.
Qed.

Lemma accept_after_once : forall t accept_msgs t',
  accept_after t = Some accept_msgs -> In t' accept_msgs ->
  once_or_repeatable t t'.
Proof.
  intros t accept_msgs t' Ha Hin. split.
  - eapply accept_after_not_earlier; eassumption.
  - intros <-. destruct t; cbn in Ha; try discriminate;
      injection Ha as <-; cbn in Hin |- *;
      repeat (destruct Hin as [Hin | Hin]; try discriminate Hin); tauto.
Qed.

Lemma once_or_repeatable_trans : forall a b c,
  once_or_repeatable a b -> once_or_repeatable b c -> once_or_repeatable a c.
Proof.
  intros a b c [Hab Rab] [Hbc Rbc]. split.
  - eapply not_earlier_trans; eassumption.
  - intros <-. apply Rab.
    unfold not_earlier in Hab, Hbc.
    destruct a, b; cbn in Hab, Hbc; try reflexivity; try lia; contradiction.
Qed.

Lemma loop_once : forall read_any keychain,
  (forall accept_msgs next m,
     read_any accept_msgs next = Ok m ->
     In (MESSAGE_WIRE_TYPE m) accept_msgs) ->
  forall (pending : list (Msg S)) (state : State S) msg,
  Sorted once_or_repeatable
    (map MESSAGE_WIRE_TYPE
       (msg :: received
                 (trace_of (sign_tx_loop read_any state msg keychain pending)))).
Proof.
  intros read_any keychain Hread.
  induction pending as [| next pending IH]; intros state msg;
    cbn [sign_tx_loop];
    destruct (_sign_tx_dispatch state msg keychain)
      as [[[r [acc |]] st] | e] eqn:D;
    try (cbn; repeat constructor; fail).
  destruct (read_any acc next) as [m | e] eqn:R;
    [ | cbn; repeat constructor ].
  rewrite !trace_of_after. cbn.
  specialize (IH st m). cbn in IH.
  constructor; [ exact IH | ]. constructor.
  apply dispatch_Ok in D as [_ D].
  eapply accept_after_once; [ symmetry; exact D | ].
  eapply Hread; exact R.
Qed.

Lemma occurrences_once : forall t l,
  ~ In t [MoneroTransactionSetInputRequest; MoneroTransactionInputViniRequest;
          MoneroTransactionSetOutputRequest;
          MoneroTransactionSignInputRequest] ->
  StronglySorted once_or_repeatable l -> occurrences t l <= 1.
Proof.
  intros t l Hbarrier Hs. unfold occurrences.
  induction Hs as [| a l Hs IH Hall]; cbn; [ lia | ].
  destruct (MessageType_eqb t a) eqn:E; [ | exact IH ].
  apply MessageType_eqb_eq in E. subst a. cbn.
  replace (filter (MessageType_eqb t) l) with (@nil MessageType);
    [ cbn; lia | ].
  symmetry. clear IH Hs.
  induction l as [| b l IHl]; [ reflexivity | ].
  inversion Hall as [| ? ? [_ Hb] Hall']; subst. cbn.
  destruct (MessageType_eqb t b) eqn:E; [ | apply IHl; exact Hall' ].
  apply MessageType_eqb_eq in E. subst b. exfalso. apply Hbarrier, Hb.
  reflexivity.
Qed.

(** When the wire context only hands over requests whose wire type is in
    the accept tuple of the previous response, each of the INIT,
    ALL_INPUTS_SET, ALL_OUTPUTS_SET and FINAL requests is processed at most
    once in a call of [sign_tx]; in particular a session is never
    initialised a second time. *)
Theorem barrier_requests_once : forall (ctx : Context S) first keychain t,
  (forall accept_msgs next m,
     read_any ctx accept_msgs next = Ok m ->
     In (MESSAGE_WIRE_TYPE m) accept_msgs) ->
  In t [MoneroTransactionInitRequest; MoneroTransactionAllInputsSetRequest;
        MoneroTransactionAllOutSetRequest; MoneroTransactionFinalRequest] ->
  occurrences t
    (map MESSAGE_WIRE_TYPE
       (first :: received (trace_of (sign_tx ctx first keychain)))) <= 1.
Proof.
  intros ctx first keychain t Hread Ht.
  apply occurrences_once.
  - cbn in Ht |- *. intuition (subst; discriminate).
  - apply Sorted_StronglySorted.
    + intros a b c. apply once_or_repeatable_trans.
    + unfold sign_tx. apply loop_once. exact Hread.
Qed.

Lemma after_Awaiting : forall events (o : Outcome S) accept_msgs trace,
  after events o = Awaiting accept_msgs trace ->
  exists trace', o = Awaiting accept_msgs trace' /\ trace = events ++ trace'.
Proof.
  intros events [r t | e t | a t] accept_msgs trace H; cbn in H;
    try discriminate.
  injection H as -> <-. eauto.
Qed.

Lemma last_after_first : forall (A : Type) (l : list A) (x d : A),
  last (x :: l) d = last l x.
Proof.
  intros A l. induction l as [| y l IH]; intros x d; [ reflexivity | ].
  change (last (x :: y :: l) d) with (last (y :: l) d).
  rewrite (IH y d), (IH y x). reflexivity.
Qed.

Lemma loop_Awaiting : forall read_any keychain
    (pending : list (Msg S)) (state : State S) msg accept_msgs trace,
  sign_tx_loop read_any state msg keychain pending
    = Awaiting accept_msgs trace ->
  List.length (received trace) = List.length pending /\
  List.length (written trace) = Datatypes.S (List.length pending) /\
  accept_after (MESSAGE_WIRE_TYPE (last (received trace) msg))
    = Some accept_msgs.
Proof.
  intros read_any keychain.
  induction pending as [| next pending IH];
    intros state msg accept_msgs trace;
    cbn [sign_tx_loop];
    destruct (_sign_tx_dispatch state msg keychain)
      as [[[r [acc |]] st] | e] eqn:D;
    try discriminate.
  - intros H. cbn in H. injection H as <- <-. cbn.
    apply dispatch_Ok in D as [_ D]. auto.
  - destruct (read_any acc next) as [m | e]; [ | discriminate ].
    intros H.
    apply after_Awaiting in H as (t1 & H & ->).
    apply after_Awaiting in H as (t2 & H & ->).
    apply IH in H as (Hr & Hw & Ha).
    cbn [app received written List.length].
    split; [ f_equal; exact Hr | ]. split; [ f_equal; exact Hw | ].
    rewrite last_after_first. exact Ha.
Qed.

(** [sign_tx] is left waiting for the host only after it has read every
    message the host sent and has written a response to each of them and to
    the first request; what it then waits for is the accept tuple of the
    last request it processed. *)
Theorem waiting_after_all_read : forall (ctx : Context S) first keychain
    accept_msgs trace,
  sign_tx ctx first keychain = Awaiting accept_msgs trace ->
  List.length (received trace) = List.length (incoming ctx) /\
  List.length (written trace) = Datatypes.S (List.length (incoming ctx)) /\
  accept_after (MESSAGE_WIRE_TYPE (last (received trace) first))
    = Some accept_msgs.
Proof.
  intros ctx first keychain accept_msgs trace. unfold sign_tx.
  apply loop_Awaiting.
Qed.

End Loop.

(** ** The theorems at concrete requests *)
Section Concrete.

Import SpecModel Example.

Example happy_path_returns :
  match sign_tx (S := S) (host happy_path) (init_request 2 2) keychain with
  | Returned result_msg trace =>
    result_msg = FinalAck [[Byte.x2a; Byte.x10]; [Byte.x2a; Byte.x10]] /\
    List.length (written trace) = 11
  | _ => False
  end.
Proof. vm_compute. split; reflexivity. Qed.

Example reordered_vini_aborts :
  match
    sign_tx (S := S)
      (host [ set_input_request 0 30; set_input_request 1 172;
              offloaded_request MoneroTransactionInputViniRequest 1 1;
              offloaded_request MoneroTransactionInputViniRequest 0 0 ])
      (init_request 2 2) keychain
  with
  | Raised e trace =>
    e = ProtocolSequenceError /\ List.length (written trace) = 3
  | _ => False
  end.
Proof. vm_compute. split; reflexivity. Qed.

Example tampered_offload_aborts :
  _sign_tx_dispatch (S := S) session_after_inputs
    (offloaded_request MoneroTransactionInputViniRequest 0 1) keychain
    = Raise IntegrityError.
Proof. vm_compute. reflexivity. Qed.

Lemma dispatch_accept_msgs_witness :
  (exists result_msg state',
     _sign_tx_dispatch (S := S) (State_new S) (init_request 2 2) keychain
       = Ok (result_msg, Some [MoneroTransactionSetInputRequest], state')) /\
  (exists result_msg state',
     _sign_tx_dispatch (S := S) session_after_inputs
       (offloaded_request MoneroTransactionInputViniRequest 0 0) keychain
       = Ok (result_msg,
             Some [MoneroTransactionInputViniRequest;
                   MoneroTransactionAllInputsSetRequest],
             state')) /\
  (exists result_msg state',
     _sign_tx_dispatch (S := S) (session_at_barrier 101)
       (blank MoneroTransactionAllOutSetRequest) keychain
       = Ok (result_msg, Some [MoneroTransactionSignInputRequest], state')) /\
  _sign_tx_dispatch (S := S) session_after_inputs
    (offloaded_request MoneroTransactionInputViniRequest 0 1) keychain
    = Raise IntegrityError.
Proof.
  split; [ | split; [ | split ] ].
  - destruct (dispatch_accept_msgs (S := S) (State_new S) (init_request 2 2)
                keychain) as [[H _] _].
    eexists _, _. apply H. reflexivity.
  - destruct (dispatch_accept_msgs (S := S) session_after_inputs
                (offloaded_request MoneroTransactionInputViniRequest 0 0)
                keychain) as [[H _] _].
    eexists _, _. apply H. reflexivity.
  - destruct (dispatch_accept_msgs (S := S) (session_at_barrier 101)
                (blank MoneroTransactionAllOutSetRequest) keychain)
      as [[H _] _].
    eexists _, _. apply H. reflexivity.
  - destruct (dispatch_accept_msgs (S := S) session_after_inputs
                (offloaded_request MoneroTransactionInputViniRequest 0 1)
                keychain) as [[_ H] _].
    apply H. reflexivity.
Defined.


Lemma read_expected_accepts : forall (S : SigningSteps) accept_msgs
    (next m : Msg S),
  read_expected accept_msgs next = Ok m ->
  In (MESSAGE_WIRE_TYPE m) accept_msgs.
Proof.
  intros S accept_msgs next m. unfold read_expected.
  destruct (existsb _ accept_msgs) eqn:E; [ | discriminate ].
  intros H. injection H as <-.
  apply existsb_exists in E as (t & Hin & Ht).
  replace (MESSAGE_WIRE_TYPE next) with t; [ exact Hin | ].
  destruct (MESSAGE_WIRE_TYPE next), t; cbn in Ht; try discriminate;
    try reflexivity.
  apply Z.eqb_eq in Ht. congruence.
Qed.



Lemma phase_never_regresses_witness :
  StronglySorted not_earlier
    [ MoneroTransactionInitRequest;
      MoneroTransactionSetInputRequest; MoneroTransactionSetInputRequest;
      MoneroTransactionInputViniRequest; MoneroTransactionInputViniRequest;
      MoneroTransactionAllInputsSetRequest;
      MoneroTransactionSetOutputRequest; MoneroTransactionSetOutputRequest;
      MoneroTransactionAllOutSetRequest;
      MoneroTransactionSignInputRequest; MoneroTransactionSignInputRequest;
      MoneroTransactionFinalRequest ].
Proof.
  exact (phase_never_regresses (host happy_path) (init_request 2 2) keychain
           (read_expected_accepts (S := S))).
Defined.

Lemma balance_check_at_barrier_witness :
  _sign_tx_dispatch (S := S) (session_at_barrier 102)
    (blank MoneroTransactionAllOutSetRequest) keychain
    = Raise IntegrityError /\
  exists s',
    _sign_tx_dispatch (S := S) (session_at_barrier 101)
      (blank MoneroTransactionAllOutSetRequest) keychain
      = Ok (AllOutSetAck, Some [MoneroTransactionSignInputRequest], s') /\
    phase s' = Some SIGN_INPUT.
Proof.
  split.
  - apply (balance_check_at_barrier (P := primitives) (session_at_barrier 102)
             (blank MoneroTransactionAllOutSetRequest) keychain
             eq_refl eq_refl).
    vm_compute. discriminate.
  - destruct (balance_check_at_barrier (P := primitives)
                (session_at_barrier 101)
                (blank MoneroTransactionAllOutSetRequest) keychain
                eq_refl eq_refl) as [_ H].
    destruct (H eq_refl) as (s' & D & Hp & _).
    exists s'. split; assumption.
Defined.

Lemma index_mismatch_rejected_witness :
  _sign_tx_dispatch (S := S) session_after_inputs
    (offloaded_request MoneroTransactionInputViniRequest 1 1) keychain
    = Raise ProtocolSequenceError.
Proof.
  apply (index_mismatch_rejected (P := primitives) session_after_inputs
           (offloaded_request MoneroTransactionInputViniRequest 1 1) keychain).
  - reflexivity.
  - vm_compute. discriminate.
Defined.

Lemma barrier_requests_once_witness :
  occurrences MoneroTransactionInitRequest
    (map MESSAGE_WIRE_TYPE
       (init_request 2 2
        :: received
             (trace_of
                (sign_tx (S := S) (host happy_path) (init_request 2 2)
                   keychain)))) <= 1.
Proof.
  apply (barrier_requests_once (S := S) (host happy_path) (init_request 2 2)
           keychain).
  - apply read_expected_accepts.
  - left. reflexivity.
Defined.

Lemma waiting_after_all_read_witness :
  exists accept_msgs trace,
    sign_tx (S := S) (host [set_input_request 0 30]) (init_request 2 2)
      keychain = Awaiting accept_msgs trace /\
    List.length (received trace) = 1 /\
    List.length (written trace) = 2 /\
    Some [MoneroTransactionSetInputRequest; MoneroTransactionInputViniRequest]
      = Some accept_msgs.
Proof.
  eexists _, _. split; [ reflexivity | ].
  exact (waiting_after_all_read (S := S) (host [set_input_request 0 30])
           (init_request 2 2) keychain eq_refl).
Defined.



End Concrete.

End SignTxProofs.

(** * Properties of the Cardano auxiliary data validation *)
Module AuxiliaryDataProofs.

Import Cardano.

Lemma assert_cond_cases : forall condition,
  (condition = true /\ assert_cond condition = Ok tt) \/
  (condition = false /\
   assert_cond condition = Raise (ProcessError "Invalid auxiliary data")).
Proof. intros []; cbn; auto. Qed.

Lemma for_each_assert : forall (A : Type) (check : A -> bool) (l : list A),
  for_each (fun x => assert_cond (check x)) l = Ok tt \/
  for_each (fun x => assert_cond (check x)) l
    = Raise (ProcessError "Invalid auxiliary data").
Proof.
  intros A check. induction l as [| x l IH]; cbn; [ auto | ].
  destruct (check x); cbn; auto.
Qed.

Section AuxiliaryData.

Variable CardanoAddressParametersType : Type.
Variable CardanoAddressType : Type.
Variable BYRON : CardanoAddressType.
Variable CardanoAddressType_eqb :
  CardanoAddressType -> CardanoAddressType -> bool.
Variable address_type : CardanoAddressParametersType -> CardanoAddressType.
Variable SCHEMA_STAKING_ANY_ACCOUNT_match : list Z -> bool.
Variable validate_address_parameters :
  CardanoAddressParametersType -> result unit.

Local Abbreviation Parameters :=
  (CardanoGovernanceRegistrationParametersType CardanoAddressParametersType).
Local Abbreviation AuxiliaryData := (CardanoTxAuxiliaryData CardanoAddressParametersType).
Local Abbreviation validate_parameters :=
  (_validate_governance_registration_parameters BYRON CardanoAddressType_eqb
     address_type SCHEMA_STAKING_ANY_ACCOUNT_match
     validate_address_parameters).
Local Abbreviation validate :=
  (validate BYRON CardanoAddressType_eqb address_type
     SCHEMA_STAKING_ANY_ACCOUNT_match validate_address_parameters).

(** The registration parameters are accepted, or refused with the error of
    [assert_cond], or refused by [addresses.validate_address_parameters]
    with whatever that raises. *)
Lemma validate_parameters_cases : forall parameters : Parameters,
  validate_parameters parameters = Ok tt \/
  validate_parameters parameters
    = Raise (ProcessError "Invalid auxiliary data") \/
  exists e,
    validate_address_parameters (reward_address_parameters parameters)
      = Raise e /\
    validate_parameters parameters = Raise e.
Proof.
  intros parameters.
  unfold _validate_governance_registration_parameters,
    _validate_delegations, _validate_voting_public_key.
  destruct (for_each_assert
              (fun d : CardanoGovernanceDelegation =>
                 Nat.eqb (List.length (delegation_voting_public_key d))
                   _GOVERNANCE_VOTING_PUBLIC_KEY_LENGTH)
              (delegations parameters)) as [F | F]; rewrite F; clear F;
    destruct (voting_public_key parameters) as [key |];
    destruct (truthy_list (delegations parameters));
    destruct (voting_purpose parameters);
    destruct (validate_address_parameters
                (reward_address_parameters parameters)) as [[] | e];
    cbn [bind];
    repeat match goal with
           | |- context [assert_cond ?c] =>
             destruct (assert_cond_cases c) as [[_ ->] | [_ ->]]; cbn [bind]
           end;
    eauto.
Qed.

(** [validate] in each of the four combinations of its two tests. *)
Lemma validate_neither : forall h,
  truthy_bytes h = false ->
  validate
    {| governance_registration_parameters := None; hash := h |}
    = Raise (ProcessError "Invalid auxiliary data").
Proof.
  intros [[| b h] |] H; try discriminate H; reflexivity.
Qed.

Lemma validate_parameters_only : forall h (parameters : Parameters),
  truthy_bytes h = false ->
  validate
    {| governance_registration_parameters := Some parameters; hash := h |}
    = validate_parameters parameters.
Proof.
  intros h parameters H. unfold Cardano.validate.
  cbn [hash governance_registration_parameters].
  destruct h as [[| b h] |]; try discriminate H; cbn [bind];
    destruct (validate_parameters parameters) as [[] | e]; reflexivity.
Qed.

Lemma validate_hash_only : forall b h,
  validate
    {| governance_registration_parameters := None; hash := Some (b :: h) |}
    = assert_cond (Nat.eqb (List.length (b :: h)) _AUXILIARY_DATA_HASH_SIZE).
Proof.
  intros b h. unfold Cardano.validate.
  cbn [hash governance_registration_parameters].
  destruct (assert_cond
              (Nat.eqb (List.length (b :: h)) _AUXILIARY_DATA_HASH_SIZE))
    as [[] | e]; reflexivity.
Qed.

Lemma validate_both : forall b h (parameters : Parameters),
  validate
    {| governance_registration_parameters := Some parameters;
       hash := Some (b :: h) |}
    = (assert_cond
         (Nat.eqb (List.length (b :: h)) _AUXILIARY_DATA_HASH_SIZE) ;;;
       validate_parameters parameters ;;;
       Raise (ProcessError "Invalid auxiliary data")).
Proof.
  intros b h parameters. unfold Cardano.validate.
  cbn [hash governance_registration_parameters].
  destruct (assert_cond
              (Nat.eqb (List.length (b :: h)) _AUXILIARY_DATA_HASH_SIZE))
    as [[] | e]; cbn [bind]; [ | reflexivity ].
  destruct (validate_parameters parameters) as [[] | e]; reflexivity.
Qed.

(** C9.  [validate] accepts the auxiliary data exactly when one of the two
    fields [hash] and [governance_registration_parameters] is provided and
    the other is not, and the provided one is valid: a hash of 32 bytes, or
    registration parameters their own validation accepts.  A field is
    provided when the code's test of it is true ([if auxiliary_data.hash],
    [if auxiliary_data.governance_registration_parameters]).  With neither
    field provided [validate] raises [wire.ProcessError("Invalid auxiliary
    data")]; with both provided it always raises, and what it raises is that
    same error unless [addresses.validate_address_parameters] raised first
    on the reward address of the parameters, whose error then propagates. *)
Theorem validate_exactly_one_field : forall auxiliary_data : AuxiliaryData,
  (validate auxiliary_data = Ok tt <->
   (hash_provided auxiliary_data = true /\
    hash_valid auxiliary_data /\
    parameters_provided auxiliary_data = false) \/
   (hash_provided auxiliary_data = false /\
    parameters_provided auxiliary_data = true /\
    parameters_valid BYRON CardanoAddressType_eqb address_type
      SCHEMA_STAKING_ANY_ACCOUNT_match validate_address_parameters
      auxiliary_data)) /\
  (hash_provided auxiliary_data = false /\
   parameters_provided auxiliary_data = false ->
   validate auxiliary_data = Raise (ProcessError "Invalid auxiliary data")) /\
  (hash_provided auxiliary_data = true /\
   parameters_provided auxiliary_data = true ->
   validate auxiliary_data = Raise (ProcessError "Invalid auxiliary data") \/
   exists parameters e,
     governance_registration_parameters auxiliary_data = Some parameters /\
     validate_address_parameters (reward_address_parameters parameters)
       = Raise e /\
     validate auxiliary_data = Raise e).
Proof.
  intros [parameters h].
  unfold hash_provided, parameters_provided, hash_valid, parameters_valid.
  cbn [hash governance_registration_parameters].
  destruct h as [[| b h] |]; destruct parameters as [parameters |];
    cbn [truthy_bytes truthy_object].
  (* hash empty, parameters there *)
  - rewrite validate_parameters_only by (cbn; auto).
    split; [ split | split; [ intros [_ H]; discriminate H
                            | intros [H _]; discriminate H ] ].
    + intros V. right. eauto.
    + intros [(H & _) | (_ & _ & p & E & V)];
        [ discriminate H | injection E as <-; exact V ].
  (* hash empty, no parameters *)
  - rewrite validate_neither by (cbn; auto).
    split; [ split | split; [ reflexivity | intros [H _]; discriminate H ] ].
    + discriminate.
    + intros [(H & _) | (_ & H & _)]; discriminate H.
  (* hash and parameters *)
  - rewrite validate_both.
    split; [ split | split; [ intros [H _]; discriminate H | intros _ ] ].
    + intros V. exfalso.
      destruct (assert_cond_cases
                  (Nat.eqb (List.length (b :: h)) _AUXILIARY_DATA_HASH_SIZE))
        as [[_ A] | [_ A]]; rewrite A in V; [ | discriminate V ].
      cbn [bind] in V.
      destruct (validate_parameters parameters); discriminate V.
    + intros [(_ & _ & H) | (H & _)]; discriminate H.
    + destruct (assert_cond_cases
                  (Nat.eqb (List.length (b :: h)) _AUXILIARY_DATA_HASH_SIZE))
        as [[_ A] | [_ A]]; rewrite A; cbn [bind]; [ | auto ].
      destruct (validate_parameters_cases parameters)
        as [V | [V | (e & R & V)]]; rewrite V; cbn [bind];
        [ left; reflexivity | left; reflexivity | ].
      right. exists parameters, e. auto.
  (* hash only *)
  - rewrite validate_hash_only.
    split; [ split | split; [ intros [H _]; discriminate H
                            | intros [_ H]; discriminate H ] ].
    + intros V. left. split; [ reflexivity | ]. split; [ | reflexivity ].
      exists (b :: h). split; [ reflexivity | ].
      destruct (assert_cond_cases
                  (Nat.eqb (List.length (b :: h)) _AUXILIARY_DATA_HASH_SIZE))
        as [[L _] | [_ A]]; [ apply Nat.eqb_eq; exact L | congruence ].
    + intros [(_ & (x & E & L) & _) | (H & _)]; [ | discriminate H ].
      injection E as <-. apply Nat.eqb_eq in L.
      unfold _AUXILIARY_DATA_HASH_SIZE. rewrite L. reflexivity.
  (* no hash, parameters there *)
  - rewrite validate_parameters_only by (cbn; auto).
    split; [ split | split; [ intros [_ H]; discriminate H
                            | intros [H _]; discriminate H ] ].
    + intros V. right. eauto.
    + intros [(H & _) | (_ & _ & p & E & V)];
        [ discriminate H | injection E as <-; exact V ].
  (* neither *)
  - rewrite validate_neither by (cbn; auto).
    split; [ split | split; [ reflexivity | intros [H _]; discriminate H ] ].
    + discriminate.
    + intros [(H & _) | (_ & H & _)]; discriminate H.
Qed.

End AuxiliaryData.

(** ** Registration parameters, payload and display *)
Section Registration.

Variable CardanoAddressParametersType : Type.
Variable CardanoAddressType : Type.
Variable BYRON : CardanoAddressType.
Variable CardanoAddressType_eqb :
  CardanoAddressType -> CardanoAddressType -> bool.
Variable address_type : CardanoAddressParametersType -> CardanoAddressType.
Variable SCHEMA_STAKING_ANY_ACCOUNT_match : list Z -> bool.
Variable validate_address_parameters :
  CardanoAddressParametersType -> result unit.

Local Abbreviation Parameters :=
  (CardanoGovernanceRegistrationParametersType CardanoAddressParametersType).
Local Abbreviation validate_parameters :=
  (_validate_governance_registration_parameters BYRON CardanoAddressType_eqb
     address_type SCHEMA_STAKING_ANY_ACCOUNT_match
     validate_address_parameters).

Lemma bind_unit_Ok : forall (m k : result unit),
  (m ;;; k) = Ok tt <-> m = Ok tt /\ k = Ok tt.
Proof.
  intros [[] | e] k; cbn; intuition congruence.
Qed.

Lemma assert_cond_Ok : forall condition,
  assert_cond condition = Ok tt <-> condition = true.
Proof. intros []; cbn; split; congruence. Qed.

Lemma Format_eqb_eq : forall a b, Format_eqb a b = true <-> a = b.
Proof. intros [] []; cbn; split; congruence. Qed.

Lemma for_each_assert_Ok : forall (A : Type) (check : A -> bool) (l : list A),
  for_each (fun x => assert_cond (check x)) l = Ok tt <->
  Forall (fun x => check x = true) l.
Proof.
  intros A check. induction l as [| x l IH]; cbn.
  - split; auto.
  - destruct (check x) eqn:E; cbn.
    + rewrite IH. split; [ auto | intros H; inversion H; auto ].
    + split; [ discriminate | intros H; inversion H; congruence ].
Qed.

Lemma validate_delegations_Ok : forall ds,
  _validate_delegations ds = Ok tt <->
  List.length ds <= 32 /\
  Forall (fun d => List.length (delegation_voting_public_key d) = 32) ds.
Proof.
  intros ds. unfold _validate_delegations, _validate_voting_public_key.
  destruct (assert_cond_cases (Nat.leb (List.length ds) _MAX_DELEGATION_COUNT))
    as [[L ->] | [L ->]]; cbn [bind].
  - rewrite for_each_assert_Ok. apply Nat.leb_le in L.
    unfold _MAX_DELEGATION_COUNT in L.
    split.
    + intros F. split; [ exact L | ].
      eapply Forall_impl; [ | exact F ]. intros d H. apply Nat.eqb_eq in H. exact H.
    + intros [_ F]. eapply Forall_impl; [ | exact F ]. intros d H. apply Nat.eqb_eq. exact H.
  - apply Nat.leb_gt in L. unfold _MAX_DELEGATION_COUNT in L.
    split; [ discriminate | intros [H _]; lia ].
Qed.

Lemma validate_parameters_Ok : forall parameters : Parameters,
  validate_parameters parameters = Ok tt <->
  ((exists key,
      voting_public_key parameters = Some key /\
      List.length key = 32 /\
      delegations parameters = []) \/
   (voting_public_key parameters = None /\
    delegations parameters <> [] /\
    format parameters = CIP36 /\
    List.length (delegations parameters) <= 32 /\
    Forall (fun d => List.length (delegation_voting_public_key d) = 32)
      (delegations parameters))) /\
  SCHEMA_STAKING_ANY_ACCOUNT_match (staking_path parameters) = true /\
  CardanoAddressType_eqb
    (address_type (reward_address_parameters parameters)) BYRON = false /\
  validate_address_parameters (reward_address_parameters parameters) = Ok tt /\
  (voting_purpose parameters <> None -> format parameters = CIP36).
Proof.
  intros parameters.
  unfold _validate_governance_registration_parameters.
  fold (_validate_delegations (delegations parameters)).
  set (rest :=
         assert_cond (SCHEMA_STAKING_ANY_ACCOUNT_match (staking_path parameters)) ;;;
         assert_cond
           (negb (CardanoAddressType_eqb
                    (address_type (reward_address_parameters parameters))
                    BYRON)) ;;;
         validate_address_parameters (reward_address_parameters parameters) ;;;
         match voting_purpose parameters with
         | Some _ => assert_cond (Format_eqb (format parameters) CIP36)
         | None => Ok tt
         end).
  assert (Rest : rest = Ok tt <->
            SCHEMA_STAKING_ANY_ACCOUNT_match (staking_path parameters) = true /\
            CardanoAddressType_eqb
              (address_type (reward_address_parameters parameters)) BYRON
              = false /\
            validate_address_parameters (reward_address_parameters parameters)
              = Ok tt /\
            (voting_purpose parameters <> None -> format parameters = CIP36)).
  { unfold rest.
    rewrite !bind_unit_Ok, !assert_cond_Ok, negb_true_iff.
    destruct (voting_purpose parameters) as [v |].
    - rewrite assert_cond_Ok, Format_eqb_eq.
      intuition congruence.
    - intuition congruence. }
  unfold _validate_voting_public_key.
  destruct (voting_public_key parameters) as [key |];
    destruct (delegations parameters) as [| d ds] eqn:Ds;
    cbn [truthy_list bind].
  - (* a key, no delegations *)
    destruct (assert_cond_cases
                (Nat.eqb (List.length key) _GOVERNANCE_VOTING_PUBLIC_KEY_LENGTH))
      as [[L ->] | [L ->]]; cbn [bind].
    + apply Nat.eqb_eq in L. cbn. rewrite Rest.
      split; [ intros H; split; [ left; eauto | exact H ] | tauto ].
    + apply Nat.eqb_neq in L.
      split; [ discriminate | ].
      intros [[(k & E & Hl & _) | (E & _)] _]; [ | discriminate E ].
      injection E as <-. contradiction.
  - (* a key and delegations *)
    split.
    + intros H. exfalso.
      destruct (assert_cond
                  (Nat.eqb (List.length key)
                     _GOVERNANCE_VOTING_PUBLIC_KEY_LENGTH)) as [[] | e];
        cbn [bind] in H; [ | discriminate H ].
      destruct (assert_cond (Format_eqb (format parameters) CIP36))
        as [[] | e]; cbn [bind] in H; [ | discriminate H ].
      destruct (_validate_delegations (d :: ds)) as [[] | e];
        cbn [bind] in H; discriminate H.
    + intros [[(k & _ & _ & E) | (E & _)] _]; discriminate E.
  - (* neither *)
    cbn. split; [ discriminate | ].
    intros [[(k & E & _) | (_ & E & _)] _]; [ discriminate E | congruence ].
  - (* delegations, no key *)
    rewrite <- Ds.
    destruct (assert_cond_cases (Format_eqb (format parameters) CIP36))
      as [[F ->] | [F ->]]; cbn [bind].
    + apply Format_eqb_eq in F.
      destruct (_validate_delegations (delegations parameters))
        as [[] | e] eqn:V; cbn [bind].
      * apply validate_delegations_Ok in V as [Hl Hf].
        cbn. rewrite Rest.
        split; [ intros H; split; [ right | exact H ] | tauto ].
        repeat split; try assumption. rewrite Ds. discriminate.
      * split; [ discriminate | ].
        intros [[(k & E & _) | (_ & _ & _ & Hl & Hf)] _];
          [ discriminate E | ].
        assert (V' : _validate_delegations (delegations parameters) = Ok tt)
          by (apply validate_delegations_Ok; auto).
        congruence.
    + split; [ discriminate | ].
      intros [[(k & E & _) | (_ & _ & F' & _)] _]; [ discriminate E | ].
      apply Format_eqb_eq in F'. congruence.
Qed.

Variable Keychain : Type.
Variable Node : Type.
Variable keychain_derive : Keychain -> list Z -> result Node.
Variable private_key : Node -> bytes.
Variable private_key_ext : Node -> bytes.
Variable derive_public_key : Keychain -> list Z -> result bytes.
Variable derive_bytes :
  Keychain -> CardanoAddressParametersType -> Z -> Z -> result bytes.
Variable derive_human_readable :
  Keychain -> CardanoAddressParametersType -> Z -> Z -> result string.
Variable cbor_encode : CborValue -> bytes.
Variable blake2b : bytes -> nat -> bytes.
Variable ed25519_sign_ext : bytes -> bytes -> bytes -> bytes.
Variable bech32_encode : string -> bytes -> string.
Variable HRP_GOVERNANCE_PUBLIC_KEY : string.
Variable user : list Dialog -> Dialog -> result unit.

Local Abbreviation AuxiliaryData :=
  (CardanoTxAuxiliaryData CardanoAddressParametersType).
Local Abbreviation validate :=
  (validate BYRON CardanoAddressType_eqb address_type
     SCHEMA_STAKING_ANY_ACCOUNT_match validate_address_parameters).
Local Abbreviation signed_payload :=
  (_get_signed_governance_registration_payload keychain_derive private_key
     private_key_ext derive_public_key derive_bytes cbor_encode blake2b
     ed25519_sign_ext).
Local Abbreviation hash_and_supplement :=
  (get_hash_and_supplement keychain_derive private_key private_key_ext
     derive_public_key derive_bytes cbor_encode blake2b ed25519_sign_ext).
Local Abbreviation show :=
  (show derive_human_readable bech32_encode HRP_GOVERNANCE_PUBLIC_KEY user).

(** [_validate_governance_registration_parameters] accepts the parameters
    exactly when: there is either a voting public key of 32 bytes and no
    delegation, or no voting public key and between 1 and 32 delegations,
    each with a key of 32 bytes, in a CIP36 registration; the staking path
    matches the schema; the reward address is not a Byron address and
    passes [addresses.validate_address_parameters]; and a voting purpose is
    only given in a CIP36 registration. *)
Theorem registration_parameters_accepted : forall parameters : Parameters,
  _validate_governance_registration_parameters BYRON CardanoAddressType_eqb
    address_type SCHEMA_STAKING_ANY_ACCOUNT_match validate_address_parameters
    parameters = Ok tt <->
  ((exists key,
      voting_public_key parameters = Some key /\
      List.length key = 32 /\
      delegations parameters = []) \/
   (voting_public_key parameters = None /\
    delegations parameters <> [] /\
    format parameters = CIP36 /\
    List.length (delegations parameters) <= 32 /\
    Forall (fun d => List.length (delegation_voting_public_key d) = 32)
      (delegations parameters))) /\
  SCHEMA_STAKING_ANY_ACCOUNT_match (staking_path parameters) = true /\
  CardanoAddressType_eqb
    (address_type (reward_address_parameters parameters)) BYRON = false /\
  validate_address_parameters (reward_address_parameters parameters) = Ok tt /\
  (voting_purpose parameters <> None -> format parameters = CIP36).
Proof. exact validate_parameters_Ok. Qed.

(** For parameters that passed validation the voting purpose to serialize
    is the one given, which is only there in a CIP36 registration; without
    one it is the default 0 for CIP36 and nothing for CIP15. *)
Theorem voting_purpose_kept : forall parameters : Parameters,
  validate_parameters parameters = Ok tt ->
  match voting_purpose parameters with
  | Some purpose =>
    format parameters = CIP36 /\
    _get_voting_purpose_to_serialize parameters = Some purpose
  | None =>
    _get_voting_purpose_to_serialize parameters
      = match format parameters with
        | CIP15 => None
        | CIP36 => Some 0%Z
        end
  end.
Proof.
  intros parameters V.
  apply validate_parameters_Ok in V as (_ & _ & _ & _ & P).
  unfold _get_voting_purpose_to_serialize.
  destruct (voting_purpose parameters) as [purpose |].
  - rewrite P by discriminate. auto.
  - destruct (format parameters); reflexivity.
Qed.

(** For parameters that passed validation, and with the keychain deriving
    the staking key, the reward address and the signing node, the
    [RuntimeError] branch is not reached: the payload has under 1 the voting
    public key if there is one and else the list of (key, weight) of the
    delegations, under 2 to 4 the staking key, the reward address and the
    nonce, and under 5 the voting purpose for CIP36 only; the signature is
    over the Blake2b digest of the CBOR encoding of that payload under key
    61284. *)
Theorem signed_payload_of_validated : forall keychain
    (parameters : Parameters) protocol_magic network_id staking_key
    reward_address node,
  validate_parameters parameters = Ok tt ->
  derive_public_key keychain (staking_path parameters) = Ok staking_key ->
  derive_bytes keychain (reward_address_parameters parameters)
    protocol_magic network_id = Ok reward_address ->
  keychain_derive keychain (staking_path parameters) = Ok node ->
  let payload :=
    [(1, match voting_public_key parameters with
         | Some key => CborBytes key
         | None =>
           CborList
             (map (fun d =>
                     CborTuple [CborBytes (delegation_voting_public_key d);
                                CborInt (weight d)])
                (delegations parameters))
         end);
     (2, CborBytes staking_key);
     (3, CborBytes reward_address);
     (4, CborInt (nonce parameters))]%Z
    ++ match format parameters with
       | CIP15 => []
       | CIP36 =>
         [(5%Z, CborInt match voting_purpose parameters with
                        | Some purpose => purpose
                        | None => 0%Z
                        end)]
       end in
  signed_payload keychain parameters protocol_magic network_id
  = Ok (payload,
        ed25519_sign_ext (private_key node) (private_key_ext node)
          (blake2b (cbor_encode (CborDict [(61284%Z, CborDict payload)])) 32)).
Proof.
  intros keychain parameters protocol_magic network_id staking_key
    reward_address node V Hs Hr Hn. cbv zeta.
  apply validate_parameters_Ok in V as (K & _ & _ & _ & P).
  assert (Hp : match voting_purpose parameters with
               | Some purpose =>
                 format parameters = CIP36 /\
                 _get_voting_purpose_to_serialize parameters = Some purpose
               | None =>
                 _get_voting_purpose_to_serialize parameters
                   = match format parameters with
                     | CIP15 => None
                     | CIP36 => Some 0%Z
                     end
               end).
  { unfold _get_voting_purpose_to_serialize.
    destruct (voting_purpose parameters) as [purpose |].
    - rewrite P by discriminate. auto.
    - destruct (format parameters); reflexivity. }
  clear P.
  unfold _get_signed_governance_registration_payload,
    _create_governance_registration_payload_signature.
  rewrite Hs, Hr, Hn.
  destruct K as [(key & -> & Hl & ->) | (-> & Hd & F & _)].
  - destruct key as [| b key]; [ discriminate Hl | ]. cbn [List.length Nat.ltb Nat.leb bind].
    destruct (voting_purpose parameters) as [purpose |].
    + destruct Hp as [-> ->]. reflexivity.
    + rewrite Hp. destruct (format parameters); reflexivity.
  - destruct (delegations parameters) as [| d ds]; [ congruence | ].
    cbn [List.length Nat.ltb Nat.leb bind].
    destruct (voting_purpose parameters) as [purpose |].
    + destruct Hp as [-> ->]. reflexivity.
    + rewrite Hp. rewrite F. reflexivity.
Qed.

Lemma signed_payload_cases : forall keychain (parameters : Parameters)
    protocol_magic network_id,
  validate_parameters parameters = Ok tt ->
  match signed_payload keychain parameters protocol_magic network_id with
  | Ok (payload, signature) =>
    exists node,
      keychain_derive keychain (staking_path parameters) = Ok node /\
      signature
      = ed25519_sign_ext (private_key node) (private_key_ext node)
          (blake2b (cbor_encode (CborDict [(61284%Z, CborDict payload)])) 32)
  | Raise e =>
    derive_public_key keychain (staking_path parameters) = Raise e \/
    derive_bytes keychain (reward_address_parameters parameters)
      protocol_magic network_id = Raise e \/
    keychain_derive keychain (staking_path parameters) = Raise e
  end.
Proof.
  intros keychain parameters protocol_magic network_id V.
  apply validate_parameters_Ok in V as (K & _).
  unfold _get_signed_governance_registration_payload,
    _create_governance_registration_payload_signature.
  assert (D : exists delegations_or_key,
    (if Nat.ltb 0 (List.length (delegations parameters)) then
       Ok (CborList
             (map (fun delegation =>
                     CborTuple
                       [CborBytes (delegation_voting_public_key delegation);
                        CborInt (weight delegation)])
                (delegations parameters)))
     else
       match voting_public_key parameters with
       | Some ((_ :: _) as key) => Ok (CborBytes key)
       | _ => Raise (OtherException "RuntimeError")
       end) = Ok delegations_or_key).
  { destruct K as [(key & -> & Hl & ->) | (-> & Hd & _)].
    - destruct key; [ discriminate Hl | ]. cbn. eauto.
    - destruct (delegations parameters); [ congruence | ]. cbn. eauto. }
  destruct D as (delegations_or_key & ->). cbn [bind].
  destruct (derive_public_key keychain (staking_path parameters))
    as [staking_key | e]; cbn [bind]; [ | auto ].
  destruct (derive_bytes keychain (reward_address_parameters parameters)
              protocol_magic network_id) as [reward_address | e];
    cbn [bind]; [ | auto ].
  destruct (keychain_derive keychain (staking_path parameters))
    as [node | e]; cbn [bind]; [ | auto ].
  exists node. split; reflexivity.
Qed.

Lemma validate_Ok_cases : forall auxiliary_data : AuxiliaryData,
  validate auxiliary_data = Ok tt ->
  (governance_registration_parameters auxiliary_data = None /\
   exists h, hash auxiliary_data = Some h /\ List.length h = 32) \/
  (exists parameters,
     governance_registration_parameters auxiliary_data = Some parameters /\
     validate_parameters parameters = Ok tt).
Proof.
  intros [parameters h] V. cbn [hash governance_registration_parameters].
  destruct parameters as [parameters |].
  - destruct (truthy_bytes h) eqn:T.
    + destruct h as [[| b h] |]; try discriminate T.
      rewrite validate_both in V.
      destruct (assert_cond _) as [[] | e]; [ | discriminate V ].
      cbn [bind] in V.
      destruct (validate_parameters parameters); discriminate V.
    + rewrite validate_parameters_only in V by exact T. eauto.
  - destruct (truthy_bytes h) eqn:T.
    + destruct h as [[| b h] |]; try discriminate T.
      rewrite validate_hash_only in V.
      apply assert_cond_Ok, Nat.eqb_eq in V. left. eauto.
    + rewrite validate_neither in V by exact T. discriminate V.
Qed.

(** After [validate] accepted the auxiliary data,
    [get_hash_and_supplement] raises neither its [AssertionError] nor the
    [RuntimeError] of the payload.  Without registration parameters it
    returns the given hash of 32 bytes with a supplement of type NONE and
    nothing else.  With them, and with the payload and the signature that
    [_get_signed_governance_registration_payload] returns, the signature
    being the one of the signing node over the digest of the payload under
    key 61284, it returns the Blake2b digest of 32 bytes of the CBOR
    encoding of the pair ({61284: payload, 61285: {1: signature}}, ()),
    and the supplement of type GOVERNANCE_REGISTRATION_SIGNATURE holds that
    same digest and that signature.  It raises only what one of the three
    key derivations raised. *)
Theorem hash_and_supplement_of_validated : forall keychain
    (auxiliary_data : AuxiliaryData) protocol_magic network_id,
  validate auxiliary_data = Ok tt ->
  match governance_registration_parameters auxiliary_data with
  | None =>
    exists h,
      hash auxiliary_data = Some h /\ List.length h = 32 /\
      hash_and_supplement keychain auxiliary_data protocol_magic network_id
      = Ok (h, {| type := NONE; auxiliary_data_hash := None;
                  governance_signature := None |})
  | Some parameters =>
    match signed_payload keychain parameters protocol_magic network_id with
    | Ok (payload, signature) =>
      let h :=
        blake2b
          (cbor_encode
             (CborTuple
                [CborDict
                   [(61284%Z, CborDict payload);
                    (61285%Z, CborDict [(1%Z, CborBytes signature)])];
                 CborTuple []]))
          32 in
      (exists node,
         keychain_derive keychain (staking_path parameters) = Ok node /\
         signature
         = ed25519_sign_ext (private_key node) (private_key_ext node)
             (blake2b
                (cbor_encode (CborDict [(61284%Z, CborDict payload)])) 32)) /\
      hash_and_supplement keychain auxiliary_data protocol_magic network_id
      = Ok (h, {| type := GOVERNANCE_REGISTRATION_SIGNATURE;
                  auxiliary_data_hash := Some h;
                  governance_signature := Some signature |})
    | Raise e =>
      hash_and_supplement keychain auxiliary_data protocol_magic network_id
        = Raise e /\
      (derive_public_key keychain (staking_path parameters) = Raise e \/
       derive_bytes keychain (reward_address_parameters parameters)
         protocol_magic network_id = Raise e \/
       keychain_derive keychain (staking_path parameters) = Raise e)
    end
  end.
Proof.
  intros keychain auxiliary_data protocol_magic network_id V.
  apply validate_Ok_cases in V.
  unfold get_hash_and_supplement.
  destruct V as [(Hp & h & Hh & Hl) | (p & Hp & V)].
  - rewrite Hp, Hh. exists h. auto.
  - rewrite Hp.
    pose proof (signed_payload_cases keychain p protocol_magic network_id V)
      as C.
    destruct (signed_payload keychain p protocol_magic network_id)
      as [[payload signature] | e].
    + cbv zeta. split; [ exact C | reflexivity ].
    + split; [ reflexivity | exact C ].
Qed.

Lemma for_each_all_confirmed : forall (A : Type) (dialog : A -> Dialog)
    (l : list A) shown,
  (forall shown d, user shown d = Ok tt) ->
  screen_for_each (fun x => layout user (dialog x)) l shown
    = (Ok tt, shown ++ map dialog l).
Proof.
  intros A dialog l shown Hu. revert shown.
  induction l as [| x l IH]; intros shown; cbn.
  - unfold screen_ret. rewrite app_nil_r. reflexivity.
  - unfold screen_bind, layout. rewrite Hu, IH, <- app_assoc. reflexivity.
Qed.

Lemma all_confirmed_nil : forall shown, all_confirmed user shown [].
Proof.
  intros shown before dialog after H. destruct before; discriminate H.
Qed.

Lemma all_confirmed_cons : forall shown dialog confirmed,
  user shown dialog = Ok tt ->
  all_confirmed user (shown ++ [dialog]) confirmed ->
  all_confirmed user shown (dialog :: confirmed).
Proof.
  intros shown dialog confirmed U H [| b before] d after E.
  - injection E as <- _. rewrite app_nil_r. exact U.
  - injection E as <- E.
    specialize (H before d after E).
    rewrite <- app_assoc in H. exact H.
Qed.

Lemma all_confirmed_snoc : forall shown confirmed dialog,
  all_confirmed user shown confirmed ->
  user (shown ++ confirmed) dialog = Ok tt ->
  all_confirmed user shown (confirmed ++ [dialog]).
Proof.
  intros shown confirmed. revert shown.
  induction confirmed as [| c confirmed IH]; intros shown dialog H U.
  - apply all_confirmed_cons; [ | apply all_confirmed_nil ].
    rewrite app_nil_r in U. exact U.
  - cbn [app]. apply all_confirmed_cons.
    + specialize (H [] c confirmed eq_refl).
      rewrite app_nil_r in H. exact H.
    + apply IH.
      * intros before d after E.
        specialize (H (c :: before) d after).
        rewrite <- app_assoc. apply H. cbn [app]. rewrite E. reflexivity.
      * rewrite <- app_assoc. exact U.
Qed.

Lemma for_each_outcome : forall (A : Type) (dialog : A -> Dialog)
    (l : list A) shown outcome shown',
  screen_for_each (fun x => layout user (dialog x)) l shown
    = (outcome, shown') ->
  match outcome with
  | Ok _ =>
    shown' = shown ++ map dialog l /\ all_confirmed user shown (map dialog l)
  | Raise e =>
    exists confirmed d,
      all_confirmed user shown confirmed /\
      shown' = shown ++ confirmed ++ [d] /\
      user (shown ++ confirmed) d = Raise e
  end.
Proof.
  intros A dialog. induction l as [| x l IH]; intros shown outcome shown'.
  - cbn. unfold screen_ret. intros H. injection H as <- <-.
    split; [ rewrite app_nil_r; reflexivity | apply all_confirmed_nil ].
  - cbn. unfold screen_bind, layout.
    destruct (user shown (dialog x)) as [[] | e] eqn:U.
    + intros H. apply IH in H.
      destruct outcome as [[] | e].
      * destruct H as [-> H]. rewrite <- app_assoc.
        split; [ reflexivity | ].
        apply all_confirmed_cons; assumption.
      * destruct H as (confirmed & d & Hc & -> & Hd).
        exists (dialog x :: confirmed), d.
        rewrite <- app_assoc in Hd.
        split; [ apply all_confirmed_cons; assumption | ].
        split; [ rewrite <- app_assoc; reflexivity | exact Hd ].
    + intros H. injection H as <- <-.
      exists [], (dialog x).
      split; [ apply all_confirmed_nil | ].
      split; [ reflexivity | rewrite app_nil_r; exact U ].
Qed.

(** When the user confirms every dialog and the reward address can be
    derived, [show] returns having shown, in this order: one dialog per
    delegation, the registration dialog (with the voting purpose only when
    details are shown), and the auxiliary data hash only when details are
    shown. *)
Theorem show_when_confirmed : forall keychain auxiliary_data_hash
    (parameters : option Parameters) protocol_magic network_id
    should_show_details reward_address shown,
  (forall shown d, user shown d = Ok tt) ->
  (forall p, parameters = Some p ->
     derive_human_readable keychain (reward_address_parameters p)
       protocol_magic network_id = Ok reward_address) ->
  show keychain auxiliary_data_hash parameters protocol_magic network_id
    should_show_details shown
  = (Ok tt,
     shown
     ++ match parameters with
        | Some p =>
          map (fun d =>
                 confirm_governance_registration_delegation
                   (bech32_encode HRP_GOVERNANCE_PUBLIC_KEY
                      (delegation_voting_public_key d))
                   (weight d))
            (delegations p)
          ++ [confirm_governance_registration
                match voting_public_key p with
                | Some ((_ :: _) as key) =>
                  Some (bech32_encode HRP_GOVERNANCE_PUBLIC_KEY key)
                | _ => None
                end
                (staking_path p) reward_address (nonce p)
                (if should_show_details
                 then _get_voting_purpose_to_serialize p
                 else None)]
        | None => []
        end
     ++ (if should_show_details
         then [show_auxiliary_data_hash auxiliary_data_hash]
         else [])).
Proof.
  intros keychain auxiliary_data_hash parameters protocol_magic network_id
    should_show_details reward_address shown Hu Hd.
  unfold Cardano.show, screen_bind.
  destruct parameters as [p |].
  - unfold _show_governance_registration, screen_bind.
    rewrite for_each_all_confirmed by exact Hu.
    unfold screen_lift. rewrite (Hd p eq_refl).
    unfold layout at 1. rewrite Hu.
    destruct should_show_details; unfold layout, screen_ret;
      rewrite ?Hu, <- ?app_assoc, ?app_nil_r; reflexivity.
  - unfold screen_ret.
    destruct should_show_details; unfold layout, screen_ret;
      rewrite ?Hu, ?app_nil_r; reflexivity.
Qed.

(** When [show] raises, nothing is shown afterwards and the dialogs
    shown before stay shown.  Either the exception is the one the user
    answered the last dialog shown with, every dialog before it having been
    confirmed; or it is the one [addresses.derive_human_readable] raised,
    and then exactly the dialogs of the delegations have been shown, all
    confirmed, and the registration dialog has not. *)
Theorem show_stops_at_refusal : forall keychain auxiliary_data_hash
    (parameters : option Parameters) protocol_magic network_id
    should_show_details shown e shown',
  show keychain auxiliary_data_hash parameters protocol_magic network_id
    should_show_details shown = (Raise e, shown') ->
  exists confirmed,
    all_confirmed user shown confirmed /\
    ((exists d,
        shown' = shown ++ confirmed ++ [d] /\
        user (shown ++ confirmed) d = Raise e) \/
     (exists p,
        parameters = Some p /\
        derive_human_readable keychain (reward_address_parameters p)
          protocol_magic network_id = Raise e /\
        confirmed
        = map (fun d =>
                 confirm_governance_registration_delegation
                   (bech32_encode HRP_GOVERNANCE_PUBLIC_KEY
                      (delegation_voting_public_key d))
                   (weight d))
            (delegations p) /\
        shown' = shown ++ confirmed)).
Proof.
  intros keychain auxiliary_data_hash parameters protocol_magic network_id
    should_show_details shown e shown'.
  unfold Cardano.show, screen_bind.
  destruct parameters as [p |].
  - unfold _show_governance_registration, screen_bind.
    destruct (screen_for_each _ (delegations p) shown) as [[[] | e1] s1] eqn:F;
      apply for_each_outcome in F.
    + destruct F as [-> C].
      unfold screen_lift.
      destruct (derive_human_readable keychain (reward_address_parameters p)
                  protocol_magic network_id) as [reward | e2] eqn:D.
      * unfold layout at 1.
        match goal with
        | |- context [user ?s ?d] => destruct (user s d) as [[] | e3] eqn:U
        end.
        -- destruct should_show_details; unfold layout, screen_ret.
           ++ match goal with
              | |- context [user ?s ?d] =>
                destruct (user s d) as [[] | e4] eqn:U4
              end; intros H; [ discriminate H | ].
              injection H as <- <-.
              eexists. split; [ apply all_confirmed_snoc; eassumption | ].
              left. eexists. rewrite <- !app_assoc in *.
              split; [ reflexivity | exact U4 ].
           ++ intros H. discriminate H.
        -- intros H. injection H as <- <-.
           eexists. split; [ exact C | ].
           left. eexists. rewrite <- !app_assoc.
           split; [ reflexivity | exact U ].
      * intros H. injection H as <- <-.
        eexists. split; [ exact C | ].
        right. exists p. auto.
    + destruct F as (confirmed & d & C & -> & U).
      intros H. injection H as <- <-.
      exists confirmed. split; [ exact C | ]. left. eauto.
  - unfold screen_ret.
    destruct should_show_details; unfold layout, screen_ret.
    + destruct (user shown (show_auxiliary_data_hash auxiliary_data_hash))
        as [[] | e4] eqn:U; intros H; [ discriminate H | ].
      injection H as <- <-.
      exists []. split; [ apply all_confirmed_nil | ].
      left. eexists. rewrite app_nil_r. split; [ reflexivity | exact U ].
    + intros H. discriminate H.
Qed.

End Registration.

(** [validate] on concrete messages, with a validator of address
    parameters that accepts everything and a path schema that accepts every
    path. *)
Section Concrete.

Import Example.

Example hash_alone_accepted :
  run {| governance_registration_parameters := None;
         hash := Some (repeat Byte.x01 32) |} = Ok tt.
Proof. reflexivity. Qed.

Example short_hash_refused :
  run {| governance_registration_parameters := None;
         hash := Some (repeat Byte.x01 31) |}
    = Raise (ProcessError "Invalid auxiliary data").
Proof. reflexivity. Qed.

Example registration_alone_accepted :
  run {| governance_registration_parameters := Some registration;
         hash := None |} = Ok tt.
Proof. reflexivity. Qed.

Example both_fields_refused :
  run {| governance_registration_parameters := Some registration;
         hash := Some (repeat Byte.x01 32) |}
    = Raise (ProcessError "Invalid auxiliary data").
Proof. reflexivity. Qed.

Example no_field_refused :
  run {| governance_registration_parameters := None; hash := None |}
    = Raise (ProcessError "Invalid auxiliary data").
Proof. reflexivity. Qed.

(** An empty byte string is false in [if auxiliary_data.hash]: it counts as
    no hash. *)
Example empty_hash_counts_as_absent :
  run {| governance_registration_parameters := Some registration;
         hash := Some [] |} = Ok tt.
Proof. reflexivity. Qed.

(** Without validation a CIP15 registration that still carries a voting
    purpose has it dropped. *)
Example unvalidated_purpose_dropped :
  _get_voting_purpose_to_serialize
    {| voting_public_key := Some (repeat Byte.x02 32);
       staking_path := []; reward_address_parameters := tt; nonce := 0;
       format := CIP15; delegations := []; voting_purpose := Some 5%Z |}
  = None.
Proof. reflexivity. Qed.

(** Without validation, parameters with neither delegations nor a key run
    into the [RuntimeError]. *)
Example unvalidated_payload_raises :
  run_signed_payload
    {| voting_public_key := Some [];
       staking_path := []; reward_address_parameters := tt; nonce := 0;
       format := CIP15; delegations := []; voting_purpose := None |}
  = Raise (OtherException "RuntimeError").
Proof. reflexivity. Qed.

Lemma voting_purpose_kept_witness :
  format registration_cip36 = CIP36 /\
  _get_voting_purpose_to_serialize registration_cip36 = Some 1%Z.
Proof.
  exact (@voting_purpose_kept unit bool true Bool.eqb (fun _ => false)
           (fun _ => true) (fun _ => Ok tt) registration_cip36 eq_refl).
Defined.

Lemma signed_payload_of_validated_witness :
  run_signed_payload registration
  = Ok ([(1, CborBytes (repeat Byte.x02 32)); (2, CborBytes [Byte.x02]);
         (3, CborBytes [Byte.x03]); (4, CborInt 7)]%Z,
        repeat Byte.x00 32).
Proof.
  exact (@signed_payload_of_validated unit bool true Bool.eqb
           (fun _ => false) (fun _ => true) (fun _ => Ok tt)
           unit unit (fun _ _ => Ok tt) (fun _ => [Byte.x0a])
           (fun _ => [Byte.x0b]) (fun _ _ => Ok [Byte.x02])
           (fun _ _ _ _ => Ok [Byte.x03]) (fun _ => [Byte.x00])
           (fun _ outlen => repeat Byte.x00 outlen) (fun _ _ digest => digest)
           tt registration 764824073%Z 1%Z [Byte.x02] [Byte.x03] tt
           eq_refl eq_refl eq_refl eq_refl).
Defined.

Lemma hash_and_supplement_of_validated_witness :
  run_hash_and_supplement
    {| governance_registration_parameters := Some registration;
       hash := None |}
  = Ok (repeat Byte.x00 32,
        {| type := GOVERNANCE_REGISTRATION_SIGNATURE;
           auxiliary_data_hash := Some (repeat Byte.x00 32);
           governance_signature := Some (repeat Byte.x00 32) |}).
Proof.
  exact (proj2
           (@hash_and_supplement_of_validated unit bool true Bool.eqb
              (fun _ => false) (fun _ => true) (fun _ => Ok tt)
              unit unit (fun _ _ => Ok tt) (fun _ => [Byte.x0a])
              (fun _ => [Byte.x0b]) (fun _ _ => Ok [Byte.x02])
              (fun _ _ _ _ => Ok [Byte.x03]) (fun _ => [Byte.x00])
              (fun _ outlen => repeat Byte.x00 outlen)
              (fun _ _ digest => digest)
              tt {| governance_registration_parameters := Some registration;
                    hash := None |}
              764824073%Z 1%Z eq_refl)).
Defined.

Lemma show_when_confirmed_witness :
  run_show confirming true
  = (Ok tt,
     [confirm_governance_registration_delegation "gov_vk" 1;
      confirm_governance_registration None [1852; 1815; 0; 2; 0]%Z
        "stake1u" 7 (Some 1%Z);
      show_auxiliary_data_hash (repeat Byte.x01 32)]).
Proof.
  exact (@show_when_confirmed unit unit (fun _ _ _ _ => Ok "stake1u"%string)
           (fun hrp _ => hrp) "gov_vk"%string confirming tt
           (repeat Byte.x01 32) (Some registration_cip36) 764824073%Z 1%Z
           true "stake1u"%string [] (fun _ _ => eq_refl)
           (fun _ _ => eq_refl)).
Defined.

Lemma show_stops_at_refusal_witness :
  (exists confirmed dialog,
     snd (run_show cancelling true) = confirmed ++ [dialog] /\
     cancelling confirmed dialog = Raise ActionCancelled) /\
  snd (run_show_without_address true)
  = [confirm_governance_registration_delegation "gov_vk" 1].
Proof.
  split.
  - destruct (@show_stops_at_refusal unit unit
                (fun _ _ _ _ => Ok "stake1u"%string)
                (fun hrp _ => hrp) "gov_vk"%string cancelling tt
                (repeat Byte.x01 32) (Some registration_cip36) 764824073%Z
                1%Z true [] ActionCancelled
                [confirm_governance_registration_delegation "gov_vk" 1;
                 confirm_governance_registration None
                   [1852; 1815; 0; 2; 0]%Z "stake1u" 7 (Some 1%Z)]
                eq_refl)
      as (confirmed & _ & [(d & E & U) | (p & _ & D & _)]).
    + exists confirmed, d. split; [ exact E | exact U ].
    + discriminate D.
  - destruct (@show_stops_at_refusal unit unit
                (fun _ _ _ _ =>
                   Raise (ProcessError "Invalid address parameters"))
                (fun hrp _ => hrp) "gov_vk"%string confirming tt
                (repeat Byte.x01 32) (Some registration_cip36) 764824073%Z
                1%Z true [] (ProcessError "Invalid address parameters")
                (snd (run_show_without_address true))
                eq_refl)
      as (confirmed & _ & [(d & _ & U) | (p & Hp & _ & -> & E)]).
    + discriminate U.
    + injection Hp as <-. exact E.
Defined.

(** What C9 says of the error fails when both fields are provided and the
    reward address of the registration is refused by the validator of
    address parameters: [validate] raises the validator's error, not
    [wire.ProcessError("Invalid auxiliary data")]. *)
Lemma both_fields_other_error :
  hash_provided both_fields = true /\
  parameters_provided both_fields = true /\
  run_refusing_address both_fields
    = Raise (ProcessError "Invalid address parameters") /\
  run_refusing_address both_fields
    <> Raise (ProcessError "Invalid auxiliary data").
Proof.
  split; [ reflexivity | ]. split; [ reflexivity | ].
  split; [ reflexivity | discriminate ].
Qed.

End Concrete.

End AuxiliaryDataProofs.

(** * Properties of [recovery_process] *)
Module RecoveryProofs.

Import Recovery.

Section RecoveryProcess.

Variable Storage : Type.
Variable is_dry_run : Storage -> bool.
Variable end_progress : Storage -> Storage.
Variable wipe : Storage -> Storage.
Variable GenericContext : Type.
Variable Success : Type.
Variable _continue_recovery_process :
  GenericContext -> Workflow Storage Success.

(** C10.  When [_continue_recovery_process] raises [RecoveryAborted],
    [recovery_process] raises [wire.ActionCancelled], and the storage it
    leaves is decided by [is_dry_run] read after the abort: for a real
    recovery the result of [storage.wipe], for a dry run the result of
    [storage_recovery.end_progress] alone, without a wipe.  For any part
    [kept] of the storage that [end_progress] does not touch (the device
    storage next to the recovery record), that part is the same after a
    dry-run abort as before it. *)
Theorem recovery_aborted : forall (Kept : Type) (kept : Storage -> Kept)
    ctx w w',
  (forall s, kept (end_progress s) = kept s) ->
  _continue_recovery_process ctx (entered w) = (Raise RecoveryAborted, w') ->
  exists w'',
    recovery_process is_dry_run end_progress wipe _continue_recovery_process
      ctx w = (Raise ActionCancelled, w'') /\
    AVOID_RESTARTING_FOR w'' = AVOID_RESTARTING_FOR w' /\
    (is_dry_run (storage w') = false -> storage w'' = wipe (storage w')) /\
    (is_dry_run (storage w') = true ->
     storage w'' = end_progress (storage w') /\
     kept (storage w'') = kept (storage w')).
Proof.
  intros Kept kept ctx w w' Hkept H.
  unfold recovery_process. cbv zeta. rewrite H.
  destruct (is_dry_run (storage w')) eqn:D.
  - eexists. split; [ reflexivity | ]. cbn.
    split; [ reflexivity | ]. split; [ discriminate | ].
    intros _. split; [ reflexivity | apply Hkept ].
  - eexists. split; [ reflexivity | ]. cbn.
    split; [ reflexivity | ]. split; [ reflexivity | discriminate ].
Qed.

End RecoveryProcess.

(** ** The steps of [_continue_recovery_process] *)
Section Steps.

Variable Storage : Type.
Variable GenericContext : Type.
Variable storage_device_get_slip39_identifier : Storage -> option Z.
Variable storage_device_get_slip39_iteration_exponent : Storage -> option Z.
Variable storage_recovery_get_slip39_identifier : Storage -> option Z.
Variable storage_recovery_get_slip39_iteration_exponent :
  Storage -> option Z.
Variable store_mnemonic_secret :
  bytes -> BackupType -> bool -> bool -> Storage -> Storage.
Variable storage_device_set_slip39_identifier : Z -> Storage -> Storage.
Variable storage_device_set_slip39_iteration_exponent :
  Z -> Storage -> Storage.
Variable show_success :
  GenericContext -> string -> string -> Workflow Storage unit.
Variable end_progress : Storage -> Storage.
Variable fetch_slip39_remaining_shares : Storage -> option (list Z).
Variable get_slip39_group_count : Storage -> Z.
Variable fetch_group : Z -> Storage -> list string.
Variable get_secret : Storage -> option bytes.
Variable sha256 : bytes -> bytes.
Variable consteq : bytes -> bytes -> bool.
Variable is_slip39_backup_type : BackupType -> bool.
Variable is_slip39_word_count : Z -> bool.
Variable MAX_SHARE_COUNT : Z.
Variable Share : Type.
Variable decode_mnemonic : string -> result Share.
Variable group_threshold : Share -> Z.
Variable format_plural : string -> Z -> string -> string.
Variable show_dry_run_result :
  GenericContext -> bool -> bool -> Workflow Storage unit.
Variable show_remaining_shares :
  GenericContext -> list Group -> list Z -> Z -> Workflow Storage unit.
Variable homescreen_dialog :
  GenericContext -> string -> string -> option string ->
  option (GenericContext -> Workflow Storage unit) -> Workflow Storage unit.

Lemma optional_eqb_eq : forall a b, optional_eqb a b = true <-> a = b.
Proof using Type.
  intros [x |] [y |]; cbn; split; try congruence.
  - intros H. apply Z.eqb_eq in H. congruence.
  - intros H. injection H as ->. apply Z.eqb_refl.
Qed.

(** With a secret in the device, [_finish_recovery_dry_run] ends the
    recovery progress, shows the result, and then returns the message of a
    valid seed exactly when the digests of the entered and the stored secret
    compare equal and, for a SLIP-39 backup only, the identifier and the
    iteration exponent of the device equal those of the recovery; otherwise
    it raises [wire.ProcessError] saying the seed does not match.  The
    device storage is only read. *)
Theorem dry_run_outcome : forall ctx secret backup_type w stored,
  get_secret (storage w) = Some stored ->
  exists result : bool,
    (result = true <->
     consteq (sha256 stored) (sha256 secret) = true /\
     (is_slip39_backup_type backup_type = true ->
      storage_device_get_slip39_identifier (storage w)
        = storage_recovery_get_slip39_identifier (storage w) /\
      storage_device_get_slip39_iteration_exponent (storage w)
        = storage_recovery_get_slip39_iteration_exponent (storage w))) /\
    _finish_recovery_dry_run storage_device_get_slip39_identifier
      storage_device_get_slip39_iteration_exponent
      storage_recovery_get_slip39_identifier
      storage_recovery_get_slip39_iteration_exponent end_progress get_secret
      sha256 consteq is_slip39_backup_type show_dry_run_result ctx secret
      (Some backup_type) w
    = match
        show_dry_run_result ctx result (is_slip39_backup_type backup_type)
          (set_storage (end_progress (storage w)) w)
      with
      | (Raise e, w') => (Raise e, w')
      | (Ok _, w') =>
        (if result
         then Ok {| message :=
                      "The seed is valid and matches the one in the device" |}
         else Raise (ProcessError
                       "The seed does not match the one in the device"),
         w')
      end.
Proof using Type.
  intros ctx secret backup_type w stored Hs.
  unfold _finish_recovery_dry_run. rewrite Hs. cbv zeta.
  match goal with
  | |- context [show_dry_run_result ctx ?r _ _] => exists r
  end.
  split.
  - destruct (is_slip39_backup_type backup_type).
    + rewrite !andb_true_iff, !optional_eqb_eq.
      split.
      * intros [[C I] X]. split; [ exact C | intros _; split; assumption ].
      * intros [C H]. destruct (H eq_refl) as [I X].
        split; [ split | ]; assumption.
    + split.
      * intros C. split; [ exact C | intros H; discriminate H ].
      * intros [C _]. exact C.
  - destruct (show_dry_run_result _ _ _ _) as [[[] | e] w'];
      [ | reflexivity ].
    match goal with |- context [if ?r then _ else _] => destruct r end;
      reflexivity.
Qed.

Lemma combine_snoc : forall (A B : Type) (l : list A) (l' : list B) a b,
  List.length l = List.length l' ->
  combine (l ++ [a]) (l' ++ [b]) = combine l l' ++ [(a, b)].
Proof using Type.
  intros A B. induction l as [| x l IH]; intros [| y l'] a b H;
    try discriminate H; [ reflexivity | ].
  cbn. f_equal. apply IH. injection H as H. exact H.
Qed.

(** The first loop, one group further. *)
Lemma enumerate_snoc : forall (A : Type) (l : list A) (x : A),
  enumerate (l ++ [x]) = enumerate l ++ [(Z.of_nat (List.length l), x)].
Proof using Type.
  intros A l x. unfold enumerate.
  rewrite length_app. cbn [List.length].
  rewrite Nat.add_1_r, seq_S, map_app. cbn [map Nat.add].
  rewrite combine_snoc; [ reflexivity | ].
  rewrite length_map, length_seq. reflexivity.
Qed.

Lemma first_entered_index_snoc : forall l x,
  first_entered_index MAX_SHARE_COUNT (l ++ [x])
  = if (x <? MAX_SHARE_COUNT)%Z then Z.of_nat (List.length l)
    else first_entered_index MAX_SHARE_COUNT l.
Proof using Type.
  intros l x. unfold first_entered_index.
  rewrite enumerate_snoc, fold_left_app. reflexivity.
Qed.

(** What the first loop of [_show_remaining_groups_and_shares] leaves in
    [first_entered_index]: -1 when no group needs fewer than
    [MAX_SHARE_COUNT] shares, and else the index of the last such group (not
    of the first one). *)
Theorem first_entered_index_is_last : forall shares_remaining,
  let i := first_entered_index MAX_SHARE_COUNT shares_remaining in
  (i = (-1)%Z /\
   Forall (fun remaining => (MAX_SHARE_COUNT <= remaining)%Z)
     shares_remaining) \/
  ((0 <= i < Z.of_nat (List.length shares_remaining))%Z /\
   (nth (Z.to_nat i) shares_remaining 0 < MAX_SHARE_COUNT)%Z /\
   forall j,
     (i < j < Z.of_nat (List.length shares_remaining))%Z ->
     (MAX_SHARE_COUNT <= nth (Z.to_nat j) shares_remaining 0)%Z).
Proof using Type.
  intros l. cbv zeta.
  induction l as [| x l IH] using rev_ind.
  - left. split; [ reflexivity | constructor ].
  - rewrite first_entered_index_snoc, length_app. cbn [List.length].
    destruct (Z.ltb_spec x MAX_SHARE_COUNT) as [Hx | Hx].
    + right. split; [ lia | ]. split.
      * rewrite Nat2Z.id, nth_middle. exact Hx.
      * intros j Hj. lia.
    + destruct IH as [[E F] | (Hi & Hn & Hj)].
      * left. split; [ exact E | ].
        apply Forall_app. split; [ exact F | repeat constructor; exact Hx ].
      * right. split; [ lia | ]. split.
        -- rewrite app_nth1 by lia. exact Hn.
        -- intros j Hjr.
           destruct (Z.eq_dec j (Z.of_nat (List.length l))) as [-> | Hne].
           ++ rewrite Nat2Z.id, nth_middle. exact Hx.
           ++ rewrite app_nth1 by lia. apply Hj. lia.
Qed.

Lemma groups_add_In : forall g x groups,
  In x (groups_add g groups) <-> x = g \/ In x groups.
Proof using Type.
  intros g x groups. unfold groups_add.
  destruct (in_dec Group_eq_dec g groups) as [H | H].
  - split; [ auto | intros [-> | H']; auto ].
  - rewrite in_app_iff. cbn.
    split; [ intros [H1 | [<- | []]]; auto | intros [-> | H1]; auto ].
Qed.

Lemma groups_add_length : forall g groups,
  List.length (groups_add g groups) <= Datatypes.S (List.length groups).
Proof using Type.
  intros g groups. unfold groups_add.
  destruct (in_dec Group_eq_dec g groups); [ lia | ].
  rewrite length_app. cbn. lia.
Qed.

Lemma groups_add_NoDup : forall g groups,
  NoDup groups -> NoDup (groups_add g groups).
Proof using Type.
  intros g groups H. unfold groups_add.
  destruct (in_dec Group_eq_dec g groups) as [I | I]; [ exact H | ].
  apply NoDup_app; [ exact H | repeat constructor; intros [] | ].
  intros x Hx [<- | []]. exact (I Hx).
Qed.

Lemma in_range_test : forall remaining,
  (0 <=? remaining)%Z && (remaining <? MAX_SHARE_COUNT)%Z = true
  <-> in_range MAX_SHARE_COUNT remaining.
Proof using Type.
  intros r. unfold in_range.
  rewrite andb_true_iff, Z.leb_le, Z.ltb_lt. reflexivity.
Qed.

Lemma collect_groups_invariant : forall s first todo groups share groups'
    share',
  collect_groups fetch_group MAX_SHARE_COUNT decode_mnemonic s first todo
    groups share = Ok (groups', share') ->
  List.length groups' <= List.length groups + List.length todo /\
  (NoDup groups -> NoDup groups') /\
  (forall g, In g groups' ->
     In g groups \/
     (exists index, In (index, fst g) todo) /\
     (in_range MAX_SHARE_COUNT (fst g) \/ fst g = MAX_SHARE_COUNT)) /\
  (share' <> None ->
   share <> None \/ Exists (fun entry => in_range MAX_SHARE_COUNT (snd entry)) todo).
Proof using Type.
  intros s first. induction todo as [| [index remaining] todo IH];
    intros groups share groups' share' H.
  - cbn in H. injection H as <- <-.
    split; [ lia | ]. split; [ auto | ]. split; [ auto | ].
    intros Hs. left. exact Hs.
  - cbn [collect_groups] in H.
    destruct ((0 <=? remaining)%Z && (remaining <? MAX_SHARE_COUNT)%Z) eqn:R.
    + apply in_range_test in R.
      destruct (first_item (fetch_group index s)) as [m | e];
        [ | discriminate H ].
      cbn [bind] in H.
      destruct (match share with
                | Some _ => Ok share
                | None => decoded <- decode_mnemonic m;; Ok (Some decoded)
                end) as [share1 | e]; [ | discriminate H ].
      cbn [bind] in H.
      apply IH in H as (Hl & Hn & Hg & Hs).
      pose proof (groups_add_length (remaining, firstn 3 (split_space m))
                    groups) as La.
      cbn [List.length]. split; [ lia | ].
      split; [ intros N; apply Hn, groups_add_NoDup, N | ].
      split.
      * intros g Hin. destruct (Hg g Hin) as [Hin' | [(i & Hi) Hr]].
        -- apply groups_add_In in Hin' as [-> | Hin']; [ | auto ].
           right. split; [ exists index; left; reflexivity | left; exact R ].
        -- right. split; [ exists i; right; exact Hi | exact Hr ].
      * intros _. right. constructor. exact R.
    + destruct (remaining =? MAX_SHARE_COUNT)%Z eqn:M.
      * apply Z.eqb_eq in M.
        destruct (first_item (fetch_group first s)) as [m | e];
          [ | discriminate H ].
        cbn [bind] in H.
        apply IH in H as (Hl & Hn & Hg & Hs).
        pose proof (groups_add_length (remaining, firstn 2 (split_space m))
                      groups) as La.
        cbn [List.length]. split; [ lia | ].
        split; [ intros N; apply Hn, groups_add_NoDup, N | ].
        split.
        -- intros g Hin. destruct (Hg g Hin) as [Hin' | [(i & Hi) Hr]].
           ++ apply groups_add_In in Hin' as [-> | Hin']; [ | auto ].
              right. split; [ exists index; left; reflexivity
                            | right; exact M ].
           ++ right. split; [ exists i; right; exact Hi | exact Hr ].
        -- intros N. destruct (Hs N) as [Hs' | Hs']; [ auto | ].
           right. apply Exists_cons_tl. exact Hs'.
      * cbn [bind] in H.
        apply IH in H as (Hl & Hn & Hg & Hs).
        cbn [List.length]. split; [ lia | ].
        split; [ exact Hn | ]. split.
        -- intros g Hin. destruct (Hg g Hin) as [Hin' | [(i & Hi) Hr]];
             [ auto | ].
           right. split; [ exists i; right; exact Hi | exact Hr ].
        -- intros N. destruct (Hs N) as [Hs' | Hs']; [ auto | ].
           right. apply Exists_cons_tl. exact Hs'.
Qed.

Lemma enumerate_In : forall (A : Type) (l : list A) i x,
  In (i, x) (enumerate l) -> In x l.
Proof using Type.
  intros A l i x H. unfold enumerate in H.
  apply in_combine_r in H. exact H.
Qed.

Lemma enumerate_length : forall (A : Type) (l : list A),
  List.length (enumerate l) = List.length l.
Proof using Type.
  intros A l. unfold enumerate.
  rewrite length_combine, length_map, length_seq. apply Nat.min_id.
Qed.

Lemma enumerate_Exists : forall (P : Z -> Prop) (l : list Z),
  Exists (fun entry => P (snd entry)) (enumerate l) -> Exists P l.
Proof using Type.
  intros P l H. apply Exists_exists in H as ([i x] & Hin & Hp).
  apply Exists_exists. exists x. split; [ | exact Hp ].
  eapply enumerate_In. exact Hin.
Qed.

(** [_show_remaining_groups_and_shares] either raises, leaving the world as
    it is, or shows the remaining shares; it shows them only when some group
    has started (needs at least 0 and fewer than [MAX_SHARE_COUNT] shares),
    and then [groups] has no repetition, at most one entry per group, and
    every entry carries the remaining count of a group that has started or
    needs exactly [MAX_SHARE_COUNT]: groups with any other count are left
    out. *)
Theorem remaining_groups_shown : forall ctx w,
  (exists e,
     _show_remaining_groups_and_shares fetch_slip39_remaining_shares
       fetch_group MAX_SHARE_COUNT decode_mnemonic group_threshold
       show_remaining_shares ctx w = (Raise e, w)) \/
  (exists shares_remaining groups share,
     fetch_slip39_remaining_shares (storage w) = Some shares_remaining /\
     shares_remaining <> [] /\
     _show_remaining_groups_and_shares fetch_slip39_remaining_shares
       fetch_group MAX_SHARE_COUNT decode_mnemonic group_threshold
       show_remaining_shares ctx w
     = show_remaining_shares ctx groups shares_remaining
         (group_threshold share) w /\
     Exists (fun remaining => (0 <= remaining < MAX_SHARE_COUNT)%Z)
       shares_remaining /\
     NoDup groups /\
     List.length groups <= List.length shares_remaining /\
     forall remaining identifier,
       In (remaining, identifier) groups ->
       In remaining shares_remaining /\
       ((0 <= remaining < MAX_SHARE_COUNT)%Z
        \/ remaining = MAX_SHARE_COUNT)).
Proof using Type.
  intros ctx w. unfold _show_remaining_groups_and_shares.
  destruct (fetch_slip39_remaining_shares (storage w)) as [[| r l] |] eqn:F;
    try (left; eauto; fail).
  cbv zeta.
  destruct (collect_groups _ _ _ _ _ _ _ _) as [[groups [share |]] | e] eqn:C;
    try (left; eauto; fail).
  right. exists (r :: l), groups, share.
  apply collect_groups_invariant in C as (Hl & Hn & Hg & Hs).
  split; [ reflexivity | ]. split; [ discriminate | ].
  split; [ reflexivity | ]. split.
  - destruct Hs as [Hs | Hs]; [ discriminate | congruence | ].
    apply enumerate_Exists in Hs. exact Hs.
  - split; [ apply Hn; constructor | ].
    split; [ rewrite enumerate_length in Hl; cbn in Hl |- *; lia | ].
    intros remaining identifier Hin.
    destruct (Hg _ Hin) as [[] | [(i & Hi) Hr]].
    cbn [fst] in *. split; [ eapply enumerate_In; exact Hi | exact Hr ].
Qed.

(** For a SLIP-39 backup whose identifier or iteration exponent is not in
    the recovery storage, [_finish_recovery] raises [RuntimeError] after the
    secret has been stored: the recovery progress is not ended, the device
    identifier and exponent are not set and no success screen is shown. *)
Theorem finish_recovery_incomplete_slip39 : forall ctx secret backup_type w,
  backup_type <> Bip39 ->
  storage_recovery_get_slip39_identifier
    (store_mnemonic_secret secret backup_type false false (storage w)) = None
  \/ storage_recovery_get_slip39_iteration_exponent
       (store_mnemonic_secret secret backup_type false false (storage w))
     = None ->
  _finish_recovery store_mnemonic_secret storage_device_set_slip39_identifier
    storage_device_set_slip39_iteration_exponent
    storage_recovery_get_slip39_identifier
    storage_recovery_get_slip39_iteration_exponent end_progress show_success
    ctx secret (Some backup_type) w
  = (Raise (OtherException "RuntimeError"),
     set_storage
       (store_mnemonic_secret secret backup_type false false (storage w)) w).
Proof using Type.
  intros ctx secret backup_type w Hb Hm.
  unfold _finish_recovery. cbv zeta. cbn [storage set_storage].
  destruct backup_type; [ congruence | | ];
    destruct (storage_recovery_get_slip39_identifier _) as [i |];
    destruct (storage_recovery_get_slip39_iteration_exponent _) as [e |];
    try reflexivity; destruct Hm; discriminate.
Qed.

(** [_request_share_first_screen] always ends in one call of
    [layout.homescreen_dialog] on the world it was given: the [RuntimeError]
    of [_request_share_next_screen] is not reached from it. *)
Theorem first_screen_is_one_dialog : forall ctx word_count w,
  exists button text subtext info,
    _request_share_first_screen fetch_slip39_remaining_shares
      get_slip39_group_count fetch_group is_slip39_word_count
      MAX_SHARE_COUNT decode_mnemonic group_threshold format_plural
      show_remaining_shares homescreen_dialog ctx word_count w
    = homescreen_dialog ctx button text subtext info w.
Proof using Type.
  intros ctx word_count w.
  unfold _request_share_first_screen, _request_share_next_screen.
  destruct (is_slip39_word_count word_count); [ | eauto ].
  destruct (fetch_slip39_remaining_shares (storage w)) as [[| r l] |];
    cbn [truthy_list]; eauto.
  destruct (1 <? get_slip39_group_count (storage w))%Z; eauto.
Qed.

End Steps.

Section Concrete.

Import Example.

Example real_recovery_abort_wipes :
  recovery_process is_dry_run end_progress wipe user_aborts tt
    (initialized false)
  = (Raise ActionCancelled,
     {| storage := {| device := None; recovery_in_progress := false;
                      recovery_dry_run := false; recovery_shares := [] |};
        AVOID_RESTARTING_FOR := [Initialize; GetFeatures] |}).
Proof. reflexivity. Qed.

Example first_entered_index_of_three :
  first_entered_index 16 [3; 16; 0]%Z = 2%Z.
Proof. reflexivity. Qed.

Example groups_of_three :
  collect_groups (Storage := unit)
    (fun index _ =>
       if (index =? 0)%Z then ["ab cd ef gh"%string] else ["ij kl mn op"%string])
    16 (fun m => Ok m) tt 2 (enumerate [3; 16; 0; 17]%Z) [] None
  = Ok ([(3, ["ab"; "cd"; "ef"]); (16, ["ij"; "kl"]); (0, ["ij"; "kl"; "mn"])]%Z%string,
        Some "ab cd ef gh"%string).
Proof. reflexivity. Qed.

Lemma dry_run_outcome_witness :
  fst (dry_run [Byte.x5e; Byte.xed] (Some Bip39))
  = Ok {| message :=
            "The seed is valid and matches the one in the device" |}.
Proof.
  unfold dry_run.
  destruct (@dry_run_outcome Storage unit (fun _ => None) (fun _ => None)
              (fun _ => None) (fun _ => None) end_progress get_secret
              (fun secret => secret) same_bytes (fun _ => false)
              (fun _ _ _ w => (Ok tt, w)) tt [Byte.x5e; Byte.xed] Bip39
              (initialized true) [Byte.x5e; Byte.xed] eq_refl)
    as (result & [_ R] & E).
  rewrite E, R; [ reflexivity | ].
  split; [ reflexivity | discriminate ].
Defined.

Lemma finish_recovery_incomplete_slip39_witness :
  fst (finish [Byte.x01] (Some Slip39_Basic))
    = Raise (OtherException "RuntimeError") /\
  recovery_in_progress (storage (snd (finish [Byte.x01] (Some Slip39_Basic))))
    = true.
Proof.
  unfold finish.
  rewrite (@finish_recovery_incomplete_slip39 Storage unit
             (fun _ => None) (fun _ => None) store_mnemonic_secret
             (fun _ s => s) (fun _ s => s) (fun _ _ _ w => (Ok tt, w))
             end_progress tt [Byte.x01] Slip39_Basic (initialized false));
    [ split; reflexivity | discriminate | left; reflexivity ].
Defined.

Lemma recovery_aborted_witness :
  exists w'',
    recovery_process is_dry_run end_progress wipe user_aborts tt
      (initialized true) = (Raise ActionCancelled, w'') /\
    device (storage w'') = Some ([Byte.x5e; Byte.xed], "My Trezor"%string) /\
    recovery_in_progress (storage w'') = false.
Proof.
  destruct (recovery_aborted is_dry_run end_progress wipe user_aborts
              device tt (initialized true) (w' := entered (initialized true))
              (fun s => eq_refl) eq_refl)
    as (w'' & R & _ & _ & D).
  exists w''. split; [ exact R | ].
  destruct (D eq_refl) as [E K]. split; [ exact K | ].
  rewrite E. reflexivity.
Defined.

End Concrete.

End RecoveryProofs.
